(** * The Veolia API client: a shallow embedding of [veolia_api/veolia_api.py]

    The client is one mutable object ([self]) talking to remote servers.  The
    embedding threads a [state] made of the client object and of the outside
    world (the answers the servers are going to give, the clock, the entropy
    source, and the log of every request issued) through a small monad whose
    results are Python's: a returned value or a raised exception.

    Conventions.
    - Python values coming from JSON are [pyval]s; JSON floats are not
      represented.
    - A timestamp is a [Z] number of microseconds since the epoch (the
      resolution of [datetime]); [.timestamp()] is read as the identity on
      it, with the host clock taken to be UTC.
    - The [Location] header is kept in the parsed form [urlparse] and
      [parse_qsl] give it: a path and the decoded fields of the query.
    - The servers' behaviour is a list of pending responses, taken in order;
      a request that finds none is never answered ([NoReply]).
    - Logging calls have no effect on the client and are left out. *)

From Stdlib Require Import String Ascii ZArith NArith List Lia Bool DecimalString.
From Stdlib.Strings Require Import Byte.
Import ListNotations.

Local Open Scope string_scope.
Local Open Scope Z_scope.
Set Warnings "-register-all".

(** ** Python values *)

Module Py.

Inductive pyval : Type :=
| PNone
| PBool (b : bool)
| PInt (n : Z)
| PStr (s : string)
| PList (l : list pyval)
| PDict (d : list (string * pyval)).

Inductive exn : Type :=
| VeoliaAPIError (msg : string)
| ValueError (msg : string)
| TypeError
| KeyError
| IndexError
| AttributeError
| OverflowError
| DecodeError.

Definition result (A : Type) : Type := (exn + A)%type.

(** [bool(v)], the test of [if v] and [not v]. *)
Definition truthy (v : pyval) : bool :=
  match v with
  | PNone => false
  | PBool b => b
  | PInt n => negb (n =? 0)
  | PStr s => negb (s =? "")%string
  | PList l => match l with [] => false | _ :: _ => true end
  | PDict d => match d with [] => false | _ :: _ => true end
  end.

(** A [dict] with string keys, in insertion order. *)
Definition dict (A : Type) : Type := list (string * A).

Fixpoint dict_find {A} (k : string) (d : dict A) : option A :=
  match d with
  | [] => None
  | (k', v) :: d' => if (k =? k')%string then Some v else dict_find k d'
  end.

(** [d[k] = v] *)
Fixpoint dict_set {A} (d : dict A) (k : string) (v : A) : dict A :=
  match d with
  | [] => [(k, v)]
  | (k', v') :: d' =>
      if (k =? k')%string then (k', v) :: d' else (k', v') :: dict_set d' k v
  end.

(** [d.update(e)] *)
Definition dict_update {A} (d e : dict A) : dict A :=
  fold_left (fun acc kv => dict_set acc (fst kv) (snd kv)) e d.

(** A display [{k1: v1, ...}]: a repeated key keeps its last value. *)
Definition dict_literal {A} (items : dict A) : dict A := dict_update [] items.

(** [v.get(k, default)] *)
Definition py_get (v : pyval) (k : string) (default : pyval) : result pyval :=
  match v with
  | PDict d => inr (match dict_find k d with Some x => x | None => default end)
  | _ => inl AttributeError
  end.

(** [v[k]] for a string [k] *)
Definition py_item (v : pyval) (k : string) : result pyval :=
  match v with
  | PDict d => match dict_find k d with Some x => inr x | None => inl KeyError end
  | _ => inl TypeError
  end.

(** [v[0]] *)
Definition py_index0 (v : pyval) : result pyval :=
  match v with
  | PList (x :: _) => inr x
  | PList [] => inl IndexError
  | PStr (String c _) => inr (PStr (String c EmptyString))
  | PStr EmptyString => inl IndexError
  | PDict _ => inl KeyError
  | PNone | PBool _ | PInt _ => inl TypeError
  end.

Definition decimal (n : Z) : string := NilZero.string_of_int (Z.to_int n).

End Py.
Import Py.

(** ** [_base64_url_encode] *)

Module Base64.

Definition alphabet : string :=
  "ABCDEFGHIJKLMNOPQRSTUVWXYZabcdefghijklmnopqrstuvwxyz0123456789-_".

Definition digit (n : N) : ascii :=
  match String.get (N.to_nat n) alphabet with
  | Some c => c
  | None => "="%char
  end.

Definition group (a b c : byte) : N :=
  (Byte.to_N a * 65536 + Byte.to_N b * 256 + Byte.to_N c)%N.

Definition sextet (w : N) (i : N) : ascii :=
  digit (N.land (N.shiftr w (6 * (3 - i))) 63).

Fixpoint urlsafe_b64encode (data : list byte) : string :=
  match data with
  | [] => ""
  | [a] =>
      let w := group a x00 x00 in
      String (sextet w 0) (String (sextet w 1) "==")
  | [a; b] =>
      let w := group a b x00 in
      String (sextet w 0) (String (sextet w 1) (String (sextet w 2) "="))
  | a :: b :: c :: rest =>
      let w := group a b c in
      String (sextet w 0) (String (sextet w 1) (String (sextet w 2)
        (String (sextet w 3) (urlsafe_b64encode rest))))
  end.

(** [s.rstrip(c)] for a single character [c] *)
Fixpoint rstrip (c : ascii) (s : string) : string :=
  match s with
  | EmptyString => EmptyString
  | String x t =>
      match rstrip c t with
      | EmptyString => if Ascii.eqb x c then EmptyString else String x EmptyString
      | t' => String x t'
      end
  end.

Definition _base64_url_encode (data : list byte) : string :=
  rstrip "="%char (urlsafe_b64encode data).

End Base64.
Import Base64.

(** ** [hashlib.sha256(data).digest()] *)

Module Sha256.

Local Open Scope N_scope.

Definition mask : N := 0xffffffff.

Definition add (x y : N) : N := N.land (x + y) mask.

Definition rotr (n x : N) : N :=
  N.lor (N.shiftr x n) (N.land (N.shiftl x (32 - n)) mask).

Definition xor3 (x y z : N) : N := N.lxor (N.lxor x y) z.

Definition Ch (x y z : N) : N :=
  N.lxor (N.land x y) (N.land (N.lxor x mask) z).

Definition Maj (x y z : N) : N :=
  xor3 (N.land x y) (N.land x z) (N.land y z).

Definition Sigma0 (x : N) : N := xor3 (rotr 2 x) (rotr 13 x) (rotr 22 x).
Definition Sigma1 (x : N) : N := xor3 (rotr 6 x) (rotr 11 x) (rotr 25 x).
Definition sigma0 (x : N) : N := xor3 (rotr 7 x) (rotr 18 x) (N.shiftr x 3).
Definition sigma1 (x : N) : N := xor3 (rotr 17 x) (rotr 19 x) (N.shiftr x 10).

(** The constants of the standard are the first 32 bits of the fractional
    parts of the cube roots (round constants) and of the square roots
    (initial hash) of the first primes. *)
Definition is_prime (n : nat) : bool :=
  forallb (fun d => negb (n mod d =? 0)%nat) (seq 2 (n - 2)).

Definition primes : list N := map N.of_nat (filter is_prime (seq 2 310)).

(** The integer cube root of [x < 2 ^ 108], a bit at a time. *)
Definition cube_root (x : N) : N :=
  fold_left (fun r b => let r' := r + N.shiftl 1 (N.of_nat b) in
                        if r' * r' * r' <=? x then r' else r)
            (rev (seq 0 36)) 0.

Definition K : list N :=
  Eval vm_compute in
    map (fun p => N.land (cube_root (N.shiftl p 96)) mask) primes.

Definition initial : list N :=
  Eval vm_compute in
    map (fun p => N.land (N.sqrt (N.shiftl p 64)) mask) (firstn 8 primes).

(** The message, a 1 bit, zeros up to 56 modulo 64 bytes, and the length in
    bits on 8 bytes. *)
Definition big_endian (width : nat) (x : N) : list N :=
  map (fun i => N.land (N.shiftr x (8 * N.of_nat i)) 0xff) (rev (seq 0 width)).

Definition pad (message : list N) : list N :=
  let len := length message in
  let zeros := ((64 - (len + 9) mod 64) mod 64)%nat in
  (message ++ [0x80] ++ repeat 0 zeros
     ++ big_endian 8 (8 * N.of_nat len))%list.

Fixpoint words (bytes : list N) : list N :=
  match bytes with
  | a :: b :: c :: d :: rest =>
      (a * 0x1000000 + b * 0x10000 + c * 0x100 + d) :: words rest
  | _ => []
  end.

(** The message schedule: [window] holds the last 16 words. *)
Fixpoint schedule (n : nat) (window : list N) : list N :=
  match n with
  | O => []
  | S n =>
      let w := add (add (sigma1 (nth 14 window 0)) (nth 9 window 0))
                   (add (sigma0 (nth 1 window 0)) (nth 0 window 0)) in
      w :: schedule n (tl window ++ [w])%list
  end.

Definition round (s : list N) (kw : N * N) : list N :=
  match s with
  | [a; b; c; d; e; f; g; h] =>
      let t1 := add (add (add h (Sigma1 e)) (add (Ch e f g) (fst kw))) (snd kw) in
      let t2 := add (Sigma0 a) (Maj a b c) in
      [add t1 t2; a; b; c; add d t1; e; f; g]
  | _ => s
  end.

Definition compress (hash block : list N) : list N :=
  let w := (block ++ schedule 48 block)%list in
  map (fun p => add (fst p) (snd p))
      (combine hash (fold_left round (combine K w) hash)).

Fixpoint blocks (n : nat) (ws : list N) (hash : list N) : list N :=
  match n with
  | O => hash
  | S n => blocks n (skipn 16 ws) (compress hash (firstn 16 ws))
  end.

Definition to_byte (x : N) : byte :=
  match Byte.of_N x with Some b => b | None => x00 end.

Definition digest (data : list byte) : list byte :=
  let ws := words (pad (map Byte.to_N data)) in
  map to_byte
      (flat_map (big_endian 4) (blocks (length ws / 16) ws initial)).

End Sha256.

Arguments Sha256.digest : simpl never.

(** ** The data model of [model.py] *)

Module Model.

(** [AlertSettings]: the eight fields [model.py] declares, in order.  The
    annotations ([bool], [int]) are not enforced by a dataclass. *)
Record AlertSettings : Type := {
  daily_enabled : pyval;
  daily_threshold : pyval;
  daily_notif_email : pyval;
  daily_notif_sms : pyval;
  monthly_enabled : pyval;
  monthly_threshold : pyval;
  monthly_notif_email : pyval;
  monthly_notif_sms : pyval
}.

Definition AlertSettings_fields : list string :=
  ["daily_enabled"; "daily_threshold"; "daily_notif_email"; "daily_notif_sms";
   "monthly_enabled"; "monthly_threshold"; "monthly_notif_email";
   "monthly_notif_sms"]%string.

(** The [__init__] a dataclass generates, called with keyword arguments only:
    a keyword that is no field, or a field without default that gets no
    value, is a [TypeError]. *)
Definition AlertSettings_init (kwargs : dict pyval) : result AlertSettings :=
  if forallb (fun kv => existsb (String.eqb (fst kv)) AlertSettings_fields) kwargs
  then
    match dict_find "daily_enabled" kwargs, dict_find "daily_threshold" kwargs,
          dict_find "daily_notif_email" kwargs, dict_find "daily_notif_sms" kwargs,
          dict_find "monthly_enabled" kwargs, dict_find "monthly_threshold" kwargs,
          dict_find "monthly_notif_email" kwargs,
          dict_find "monthly_notif_sms" kwargs with
    | Some a, Some b, Some c, Some d, Some e, Some f, Some g, Some h =>
        inr {| daily_enabled := a; daily_threshold := b;
               daily_notif_email := c; daily_notif_sms := d;
               monthly_enabled := e; monthly_threshold := f;
               monthly_notif_email := g; monthly_notif_sms := h |}
    | _, _, _, _, _, _, _, _ => inl TypeError
    end
  else inl TypeError.

(** Attribute access [alert_settings.name] on an instance built by
    [__init__]: a name that is no field is an [AttributeError]. *)
Definition AlertSettings_getattr (a : AlertSettings) (name : string)
  : result pyval :=
  if (name =? "daily_enabled")%string then inr (daily_enabled a)
  else if (name =? "daily_threshold")%string then inr (daily_threshold a)
  else if (name =? "daily_notif_email")%string then inr (daily_notif_email a)
  else if (name =? "daily_notif_sms")%string then inr (daily_notif_sms a)
  else if (name =? "monthly_enabled")%string then inr (monthly_enabled a)
  else if (name =? "monthly_threshold")%string then inr (monthly_threshold a)
  else if (name =? "monthly_notif_email")%string then inr (monthly_notif_email a)
  else if (name =? "monthly_notif_sms")%string then inr (monthly_notif_sms a)
  else inl AttributeError.

Record VeoliaAccountData : Type := {
  access_token : pyval;
  token_expiration : Z;
  code : pyval;
  verifier : pyval;
  id_abonnement : pyval;
  numero_pds : pyval;
  contact_id : pyval;
  tiers_id : pyval;
  numero_compteur : pyval;
  date_debut_abonnement : pyval;
  monthly_consumption : pyval;
  daily_consumption : pyval;
  alert_settings : option AlertSettings
}.

(** [VeoliaAccountData()] *)
Definition VeoliaAccountData_default : VeoliaAccountData :=
  {| access_token := PNone; token_expiration := 0; code := PNone;
     verifier := PNone; id_abonnement := PNone; numero_pds := PNone;
     contact_id := PNone; tiers_id := PNone; numero_compteur := PNone;
     date_debut_abonnement := PNone; monthly_consumption := PNone;
     daily_consumption := PNone; alert_settings := None |}.

Definition set_access_token (v : pyval) (a : VeoliaAccountData) :=
  {| access_token := v; token_expiration := token_expiration a; code := code a;
     verifier := verifier a; id_abonnement := id_abonnement a;
     numero_pds := numero_pds a; contact_id := contact_id a;
     tiers_id := tiers_id a; numero_compteur := numero_compteur a;
     date_debut_abonnement := date_debut_abonnement a;
     monthly_consumption := monthly_consumption a;
     daily_consumption := daily_consumption a;
     alert_settings := alert_settings a |}.

Definition set_token_expiration (t : Z) (a : VeoliaAccountData) :=
  {| access_token := access_token a; token_expiration := t; code := code a;
     verifier := verifier a; id_abonnement := id_abonnement a;
     numero_pds := numero_pds a; contact_id := contact_id a;
     tiers_id := tiers_id a; numero_compteur := numero_compteur a;
     date_debut_abonnement := date_debut_abonnement a;
     monthly_consumption := monthly_consumption a;
     daily_consumption := daily_consumption a;
     alert_settings := alert_settings a |}.

Definition set_code (v : pyval) (a : VeoliaAccountData) :=
  {| access_token := access_token a; token_expiration := token_expiration a;
     code := v; verifier := verifier a; id_abonnement := id_abonnement a;
     numero_pds := numero_pds a; contact_id := contact_id a;
     tiers_id := tiers_id a; numero_compteur := numero_compteur a;
     date_debut_abonnement := date_debut_abonnement a;
     monthly_consumption := monthly_consumption a;
     daily_consumption := daily_consumption a;
     alert_settings := alert_settings a |}.

Definition set_verifier (v : pyval) (a : VeoliaAccountData) :=
  {| access_token := access_token a; token_expiration := token_expiration a;
     code := code a; verifier := v; id_abonnement := id_abonnement a;
     numero_pds := numero_pds a; contact_id := contact_id a;
     tiers_id := tiers_id a; numero_compteur := numero_compteur a;
     date_debut_abonnement := date_debut_abonnement a;
     monthly_consumption := monthly_consumption a;
     daily_consumption := daily_consumption a;
     alert_settings := alert_settings a |}.

Definition set_id_abonnement (v : pyval) (a : VeoliaAccountData) :=
  {| access_token := access_token a; token_expiration := token_expiration a;
     code := code a; verifier := verifier a; id_abonnement := v;
     numero_pds := numero_pds a; contact_id := contact_id a;
     tiers_id := tiers_id a; numero_compteur := numero_compteur a;
     date_debut_abonnement := date_debut_abonnement a;
     monthly_consumption := monthly_consumption a;
     daily_consumption := daily_consumption a;
     alert_settings := alert_settings a |}.

Definition set_numero_pds (v : pyval) (a : VeoliaAccountData) :=
  {| access_token := access_token a; token_expiration := token_expiration a;
     code := code a; verifier := verifier a; id_abonnement := id_abonnement a;
     numero_pds := v; contact_id := contact_id a;
     tiers_id := tiers_id a; numero_compteur := numero_compteur a;
     date_debut_abonnement := date_debut_abonnement a;
     monthly_consumption := monthly_consumption a;
     daily_consumption := daily_consumption a;
     alert_settings := alert_settings a |}.

Definition set_contact_id (v : pyval) (a : VeoliaAccountData) :=
  {| access_token := access_token a; token_expiration := token_expiration a;
     code := code a; verifier := verifier a; id_abonnement := id_abonnement a;
     numero_pds := numero_pds a; contact_id := v;
     tiers_id := tiers_id a; numero_compteur := numero_compteur a;
     date_debut_abonnement := date_debut_abonnement a;
     monthly_consumption := monthly_consumption a;
     daily_consumption := daily_consumption a;
     alert_settings := alert_settings a |}.

Definition set_tiers_id (v : pyval) (a : VeoliaAccountData) :=
  {| access_token := access_token a; token_expiration := token_expiration a;
     code := code a; verifier := verifier a; id_abonnement := id_abonnement a;
     numero_pds := numero_pds a; contact_id := contact_id a;
     tiers_id := v; numero_compteur := numero_compteur a;
     date_debut_abonnement := date_debut_abonnement a;
     monthly_consumption := monthly_consumption a;
     daily_consumption := daily_consumption a;
     alert_settings := alert_settings a |}.

Definition set_numero_compteur (v : pyval) (a : VeoliaAccountData) :=
  {| access_token := access_token a; token_expiration := token_expiration a;
     code := code a; verifier := verifier a; id_abonnement := id_abonnement a;
     numero_pds := numero_pds a; contact_id := contact_id a;
     tiers_id := tiers_id a; numero_compteur := v;
     date_debut_abonnement := date_debut_abonnement a;
     monthly_consumption := monthly_consumption a;
     daily_consumption := daily_consumption a;
     alert_settings := alert_settings a |}.

Definition set_date_debut_abonnement (v : pyval) (a : VeoliaAccountData) :=
  {| access_token := access_token a; token_expiration := token_expiration a;
     code := code a; verifier := verifier a; id_abonnement := id_abonnement a;
     numero_pds := numero_pds a; contact_id := contact_id a;
     tiers_id := tiers_id a; numero_compteur := numero_compteur a;
     date_debut_abonnement := v;
     monthly_consumption := monthly_consumption a;
     daily_consumption := daily_consumption a;
     alert_settings := alert_settings a |}.

Definition set_monthly_consumption (v : pyval) (a : VeoliaAccountData) :=
  {| access_token := access_token a; token_expiration := token_expiration a;
     code := code a; verifier := verifier a; id_abonnement := id_abonnement a;
     numero_pds := numero_pds a; contact_id := contact_id a;
     tiers_id := tiers_id a; numero_compteur := numero_compteur a;
     date_debut_abonnement := date_debut_abonnement a;
     monthly_consumption := v;
     daily_consumption := daily_consumption a;
     alert_settings := alert_settings a |}.

Definition set_daily_consumption (v : pyval) (a : VeoliaAccountData) :=
  {| access_token := access_token a; token_expiration := token_expiration a;
     code := code a; verifier := verifier a; id_abonnement := id_abonnement a;
     numero_pds := numero_pds a; contact_id := contact_id a;
     tiers_id := tiers_id a; numero_compteur := numero_compteur a;
     date_debut_abonnement := date_debut_abonnement a;
     monthly_consumption := monthly_consumption a;
     daily_consumption := v;
     alert_settings := alert_settings a |}.

Definition set_alert_settings (v : option AlertSettings)
  (a : VeoliaAccountData) :=
  {| access_token := access_token a; token_expiration := token_expiration a;
     code := code a; verifier := verifier a; id_abonnement := id_abonnement a;
     numero_pds := numero_pds a; contact_id := contact_id a;
     tiers_id := tiers_id a; numero_compteur := numero_compteur a;
     date_debut_abonnement := date_debut_abonnement a;
     monthly_consumption := monthly_consumption a;
     daily_consumption := daily_consumption a;
     alert_settings := v |}.

End Model.
Import Model.

(** ** The outside world and the client object *)

Module World.

(** What [urlparse] and [parse_qsl] make of a [Location] header. *)
Record url_parts : Type := {
  url_path : string;
  url_query : list (string * string)
}.

(** [urlparse(response.headers.get("Location"))]: without the header the
    argument is [None], and every component of the result is empty. *)
Definition urlparse (location : option url_parts) : url_parts :=
  match location with
  | Some u => u
  | None => {| url_path := ""; url_query := [] |}
  end.

(** [parse_qs]: the values of each name, in order; blank values are dropped
    ([keep_blank_values] is off). *)
Fixpoint parse_qs_acc (fields : list (string * string))
  (acc : dict (list string)) : dict (list string) :=
  match fields with
  | [] => acc
  | (name, value) :: rest =>
      if (value =? "")%string then parse_qs_acc rest acc
      else
        parse_qs_acc rest
          (match dict_find name acc with
           | Some vs => dict_set acc name (vs ++ [value])%list
           | None => dict_set acc name [value]
           end)
  end.

Definition parse_qs (fields : list (string * string)) : dict (list string) :=
  parse_qs_acc fields [].

Record response : Type := {
  status : Z;
  Location : option url_parts;
  json : option pyval
}.

(** The place in the client a request is issued from; a flow step carries
    the loop's [next_url] and [state] at that iteration. *)
Inductive call_site : Type :=
| FlowStep (next_url : string) (state : pyval)
| TokenCall
| AccountCall
| BillingCall
| AlertsGet
| AlertsPost
| ConsumptionCall.

Inductive payload : Type :=
| NoPayload
| Params (params : dict pyval)
| FormData (params : dict pyval)
| JsonBody (body : pyval).

Record request : Type := {
  rq_site : call_site;
  rq_method : string;
  rq_url : string;
  rq_headers : list (string * string);
  rq_payload : payload
}.

Record world : Type := {
  pending : list response;
  exchanges : list (request * option response);
  clock : nat -> Z;
  clock_reads : nat;
  entropy : nat -> list byte;
  entropy_draws : nat
}.

Record VeoliaAPI : Type := {
  username : pyval;
  password : pyval;
  account_data : VeoliaAccountData
}.

Record state : Type := {
  self : VeoliaAPI;
  env : world
}.

(** [VeoliaAPI(username, password)] *)
Definition VeoliaAPI_init (u p : pyval) : VeoliaAPI :=
  {| username := u; password := p; account_data := VeoliaAccountData_default |}.

End World.
Import World.

(** ** Computations: a value or an exception, and the state they leave *)

Module Run.

Inductive outcome (A : Type) : Type :=
| Ret (a : A)
| Exc (e : exn)
| NoReply
| OutOfFuel.

Arguments Ret {A} a.
Arguments Exc {A} e.
Arguments NoReply {A}.
Arguments OutOfFuel {A}.

Definition M (A : Type) : Type := state -> outcome A * state.

Definition ret {A} (a : A) : M A := fun st => (Ret a, st).

Definition raise {A} (e : exn) : M A := fun st => (Exc e, st).

Definition out_of_fuel {A} : M A := fun st => (OutOfFuel, st).

Definition bind {A B} (m : M A) (k : A -> M B) : M B :=
  fun st =>
    match m st with
    | (Ret a, st') => k a st'
    | (Exc e, st') => (Exc e, st')
    | (NoReply, st') => (NoReply, st')
    | (OutOfFuel, st') => (OutOfFuel, st')
    end.

Definition lift {A} (r : result A) : M A :=
  match r with
  | inr a => ret a
  | inl e => raise e
  end.

Definition rbind {A B} (r : result A) (k : A -> result B) : result B :=
  match r with
  | inr a => k a
  | inl e => inl e
  end.

Definition get_self : M VeoliaAPI := fun st => (Ret (self st), st).

Definition get_account : M VeoliaAccountData :=
  fun st => (Ret (account_data (self st)), st).

Definition with_account (f : VeoliaAccountData -> VeoliaAccountData)
  (st : state) : state :=
  {| self := {| username := username (self st);
                password := password (self st);
                account_data := f (account_data (self st)) |};
     env := env st |}.

Definition modify_account (f : VeoliaAccountData -> VeoliaAccountData)
  : M unit :=
  fun st => (Ret tt, with_account f st).

(** One more reading of the clock has been taken. *)
Definition tick (st : state) : state :=
  {| self := self st;
     env := {| pending := pending (env st);
               exchanges := exchanges (env st);
               clock := clock (env st);
               clock_reads := S (clock_reads (env st));
               entropy := entropy (env st);
               entropy_draws := entropy_draws (env st) |} |}.

(** The reading the next [datetime.now()] gives. *)
Definition current_time (st : state) : Z :=
  clock (env st) (clock_reads (env st)).

(** [datetime.now()] *)
Definition now : M Z := fun st => (Ret (current_time st), tick st).

(** [os.urandom(32)] *)
Definition urandom32 : M (list byte) :=
  fun st =>
    (Ret (entropy (env st) (entropy_draws (env st))),
     {| self := self st;
        env := {| pending := pending (env st);
                  exchanges := exchanges (env st);
                  clock := clock (env st);
                  clock_reads := clock_reads (env st);
                  entropy := entropy (env st);
                  entropy_draws := S (entropy_draws (env st)) |} |}).

Definition exchanged (rq : request) (r : option response)
  (rest : list response) (st : state) : state :=
  {| self := self st;
     env := {| pending := rest;
               exchanges := (exchanges (env st) ++ [(rq, r)])%list;
               clock := clock (env st);
               clock_reads := clock_reads (env st);
               entropy := entropy (env st);
               entropy_draws := entropy_draws (env st) |} |}.

(** One request on the [aiohttp] session, redirects not followed: the
    request is logged and answered by the next pending response; when the
    servers have no answer left the call never resumes. *)
Definition http (rq : request) : M response :=
  fun st =>
    match pending (env st) with
    | r :: rest => (Ret r, exchanged rq (Some r) rest st)
    | [] => (NoReply, exchanged rq None [] st)
    end.

(** [await response.json()] *)
Definition response_json (r : response) : M pyval :=
  match json r with
  | Some v => ret v
  | None => raise DecodeError
  end.

End Run.
Import Run.

Declare Scope run_scope.
Delimit Scope run_scope with run.
Notation "x <- m ;; k" := (bind m (fun x => k))
  (at level 100, m at next level, right associativity) : run_scope.
Notation "m ;;; k" := (bind m (fun _ => k))
  (at level 100, right associativity) : run_scope.
Notation "x <~ r ;; k" := (rbind r (fun x => k))
  (at level 100, r at next level, right associativity) : run_scope.
Local Open Scope run_scope.

(** ** [constants.py] and what [veolia_api.py] imports beyond it *)

Module Constants.

Definition LOGIN_URL : string := "https://cognito-idp.eu-west-3.amazonaws.com".
Definition BACKEND_ISTEFR : string := "https://prd-ael-sirius-backend.istefr.fr".
Definition CALLBACK_ENDPOINT : string := "/callback".
Definition TYPE_FRONT : string := "WEB_ORDINATEUR".

(** [http.HTTPStatus] *)
Definition BAD_REQUEST : Z := 400.
Definition FOUND : Z := 302.
Definition OK : Z := 200.
Definition NO_CONTENT : Z := 204.

(** One entry of the flow descriptor: [config["method"]],
    [config["params"]] (a builder called with positional arguments, or
    nothing) and [config["success_status"]]. *)
Record flow_step : Type := {
  method : string;
  params : option (list pyval -> dict pyval);
  success_status : Z
}.

(** The names [veolia_api.py] uses that the sources at hand do not define:
    seven constants and the flow descriptor, imported from [constants.py];
    and the text Python gives a list or a dict inside an f-string.  The
    client is verified for every value of them. *)
Class Imported : Type := {
  AUTHORIZE_ENDPOINT : string;
  LOGIN_IDENTIFIER_ENDPOINT : string;
  LOGIN_PASSWORD_ENDPOINT : string;
  BASE_URL : string;
  CLIENT_ID : string;
  CODE_CHALLENGE_METHODE : string;
  OAUTH_TOKEN : string;
  API_CONNECTION_FLOW : string -> option flow_step;
  container_text : pyval -> string
}.

(** [class ConsumptionType(Enum)] *)
Inductive ConsumptionType : Type :=
| MONTHLY
| YEARLY.

Definition ConsumptionType_eqb (a b : ConsumptionType) : bool :=
  match a, b with
  | MONTHLY, MONTHLY | YEARLY, YEARLY => true
  | _, _ => false
  end.

End Constants.
Import Constants.

(** ** [datetime] arithmetic *)

Module Datetime.

Definition datetime_min : Z := -62135596800000000.
Definition datetime_max : Z := 253402300799999999.

(** [timedelta(seconds=v)], in microseconds: an integer (or a [bool]) number
    of seconds whose days fit the type. *)
Definition timedelta_seconds (v : pyval) : result Z :=
  match v with
  | PInt n =>
      if (-999999999 <=? n / 86400) && (n / 86400 <=? 999999999)
      then inr (n * 1000000) else inl OverflowError
  | PBool b => inr (if b then 1000000 else 0)
  | _ => inl TypeError
  end.

(** [t + delta] on a [datetime] *)
Definition datetime_add (t delta : Z) : result Z :=
  if (datetime_min <=? t + delta) && (t + delta <=? datetime_max)
  then inr (t + delta) else inl OverflowError.

End Datetime.
Import Datetime.

(** ** The client *)

Section Client.

Context {imported : Imported}.

(** [str(v)] and [f"{v}"] *)
Definition py_str (v : pyval) : string :=
  match v with
  | PNone => "None"
  | PBool true => "True"
  | PBool false => "False"
  | PInt n => decimal n
  | PStr s => s
  | PList _ | PDict _ => container_text v
  end.

Definition double_quote : string := String (ascii_of_nat 34) EmptyString.

(** [b'{"name": "auth0-react", "version": "1.11.0"}'] *)
Definition auth0_client_tag : list byte :=
  list_byte_of_string
    ("{" ++ double_quote ++ "name" ++ double_quote ++ ": "
         ++ double_quote ++ "auth0-react" ++ double_quote ++ ", "
         ++ double_quote ++ "version" ++ double_quote ++ ": "
         ++ double_quote ++ "1.11.0" ++ double_quote ++ "}").

Definition _sha256 (data : list byte) : list byte := Sha256.digest data.

Definition _get_authorize_params (state : pyval) : M (dict pyval) :=
  r <- urandom32 ;;
  let state := _base64_url_encode r in
  r <- urandom32 ;;
  let nonce := _base64_url_encode r in
  r <- urandom32 ;;
  let verifier := _base64_url_encode r in
  let challenge := _base64_url_encode (_sha256 (list_byte_of_string verifier)) in
  modify_account (set_verifier (PStr verifier)) ;;;
  ret (dict_literal
         [("audience", PStr BACKEND_ISTEFR);
          ("redirect_uri", PStr (BASE_URL ++ CALLBACK_ENDPOINT));
          ("client_id", PStr CLIENT_ID);
          ("scope", PStr "openid profile email offline_access");
          ("response_type", PStr "code");
          ("state", PStr state);
          ("nonce", PStr nonce);
          ("response_mode", PStr "query");
          ("code_challenge", PStr challenge);
          ("code_challenge_method", PStr CODE_CHALLENGE_METHODE);
          ("auth0Client", PStr (_base64_url_encode auth0_client_tag))]).

Definition send_request (site : call_site) (url method : string)
  (params : dict pyval) : M response :=
  if (method =? "GET")%string then
    http {| rq_site := site; rq_method := "GET"; rq_url := url;
            rq_headers := []; rq_payload := Params params |}
  else if (method =? "POST")%string then
    http {| rq_site := site; rq_method := "POST"; rq_url := url;
            rq_headers :=
              [("Content-Type", "application/x-www-form-urlencoded");
               ("Cache-Control", "no-cache")];
            rq_payload := FormData params |}
  else raise (ValueError ("Unsupported HTTP method: " ++ method)).

Definition _get_full_url (next_url : string) : string :=
  if negb (next_url =? CALLBACK_ENDPOINT)%string
  then LOGIN_URL ++ next_url
  else BASE_URL ++ next_url.

(** [self.api_flow[next_url]] *)
Definition api_flow (next_url : string) : result flow_step :=
  match API_CONNECTION_FLOW next_url with
  | Some config => inr config
  | None => inl KeyError
  end.

(** [config["params"](args)]: calling [None] is a [TypeError]. *)
Definition call_params (config : flow_step) (args : list pyval)
  : M (dict pyval) :=
  match params config with
  | Some build => ret (build args)
  | None => raise TypeError
  end.

(** The lambdas of [_get_params], by the key they are stored under. *)
Inductive param_function : Type :=
| for_authorize
| for_login_identifier
| for_login_password
| for_callback.

Definition param_functions : dict param_function :=
  dict_literal
    [(AUTHORIZE_ENDPOINT, for_authorize);
     (LOGIN_IDENTIFIER_ENDPOINT, for_login_identifier);
     (LOGIN_PASSWORD_ENDPOINT, for_login_password);
     (CALLBACK_ENDPOINT, for_callback)].

Definition _get_params (next_url : string) (config : flow_step)
  (current_state : pyval) : M (dict pyval) :=
  me <- get_self ;;
  match dict_find next_url param_functions with
  | Some for_authorize => _get_authorize_params current_state
  | Some for_login_identifier =>
      call_params config [current_state; username me]
  | Some for_login_password =>
      call_params config [current_state; username me; password me]
  | Some for_callback =>
      call_params config [current_state; code (account_data me)]
  | None =>
      match params config with
      | Some build => ret (build [current_state])
      | None => ret []
      end
  end.

Definition _handle_response (response : response) (next_url : string)
  (state : pyval) (full_url : string) : M (option string * pyval) :=
  if (status response =? BAD_REQUEST)
     && (next_url =? LOGIN_PASSWORD_ENDPOINT)%string
  then raise (VeoliaAPIError "Invalid username or password")
  else
    config <- lift (api_flow next_url) ;;
    if negb (status response =? success_status config)
    then raise (VeoliaAPIError ("API call to " ++ full_url
                                ++ " failed with status "
                                ++ decimal (status response)))
    else if status response =? FOUND then
      let redirect_url := urlparse (Location response) in
      let next_url := url_path redirect_url in
      let new_state := dict_find "state" (parse_qs (url_query redirect_url)) in
      let state :=
        match new_state with
        | Some (s :: _) => PStr s
        | Some [] | None => state
        end in
      (if (next_url =? CALLBACK_ENDPOINT)%string then
         c <- lift (match dict_find "code" (parse_qs (url_query redirect_url)) with
                    | Some (c :: _) => inr (PStr c)
                    | Some [] => inl IndexError
                    | None => inr PNone
                    end) ;;
         modify_account (set_code c) ;;;
         if negb (truthy c)
         then raise (VeoliaAPIError "Authorization code not found")
         else ret tt
       else ret tt) ;;;
      ret (Some next_url, state)
    else if (status response =? OK) && (next_url =? CALLBACK_ENDPOINT)%string
    then ret (None, state)
    else raise (VeoliaAPIError ("Unexpected 200 response from " ++ full_url)).

(** The [while next_url:] loop of [execute_flow]; an iteration that gets a
    response takes it from the pending ones, which bounds the fuel. *)
Fixpoint flow_loop (fuel : nat) (next_url : option string) (state : pyval)
  : M unit :=
  match next_url with
  | None => ret tt
  | Some next_url =>
      if (next_url =? "")%string then ret tt
      else
        match fuel with
        | O => out_of_fuel
        | S fuel =>
            config <- lift (api_flow next_url) ;;
            let full_url := _get_full_url next_url in
            params <- _get_params next_url config state ;;
            let full_url :=
              if truthy state then full_url ++ "?state=" ++ py_str state
              else full_url in
            response <- send_request (FlowStep next_url state) full_url
                          (method config) params ;;
            r <- _handle_response response next_url state full_url ;;
            flow_loop fuel (fst r) (snd r)
        end
  end.

Definition execute_flow : M unit :=
  fun st =>
    flow_loop (S (length (pending (env st)))) (Some AUTHORIZE_ENDPOINT) PNone st.

Definition get_access_token : M unit :=
  let token_url := LOGIN_URL ++ OAUTH_TOKEN in
  me <- get_account ;;
  token_response <-
    http {| rq_site := TokenCall; rq_method := "POST"; rq_url := token_url;
            rq_headers := [];
            rq_payload :=
              JsonBody (PDict (dict_literal
                [("client_id", PStr CLIENT_ID);
                 ("grant_type", PStr "authorization_code");
                 ("code_verifier", verifier me);
                 ("code", code me);
                 ("redirect_uri", PStr (BASE_URL ++ CALLBACK_ENDPOINT))])) |} ;;
  if negb (status token_response =? OK)
  then raise (VeoliaAPIError "Token API call error")
  else
    token_data <- response_json token_response ;;
    token <- lift (py_get token_data "access_token" PNone) ;;
    modify_account (set_access_token token) ;;;
    if negb (truthy token)
    then raise (VeoliaAPIError "Access token not found in the token response")
    else
      t <- now ;;
      expires_in <- lift (py_get token_data "expires_in" (PInt 0)) ;;
      delta <- lift (timedelta_seconds expires_in) ;;
      expiration <- lift (datetime_add t delta) ;;
      modify_account (set_token_expiration expiration).

(** [check_token], with the [login] it calls as a parameter. *)
Definition check_token_with (login : M bool) : M unit :=
  me <- get_account ;;
  if negb (truthy (access_token me)) then login ;;; ret tt
  else
    t <- now ;;
    if token_expiration me <=? t then login ;;; ret tt
    else ret tt.

Definition first_contact (userdata : pyval) : result pyval :=
  contacts <~ py_get userdata "contacts" PNone ;; py_index0 contacts.

Definition first_tiers (userdata : pyval) : result pyval :=
  contact <~ first_contact userdata ;;
  tiers <~ py_get contact "tiers" PNone ;; py_index0 tiers.

Definition first_abonnement (userdata : pyval) : result pyval :=
  tiers <~ first_tiers userdata ;;
  abonnements <~ py_get tiers "abonnements" PNone ;; py_index0 abonnements.

Definition get_client_data_with (login : M bool) : M unit :=
  check_token_with login ;;;
  me <- get_account ;;
  let headers := [("Authorization", "Bearer " ++ py_str (access_token me))] in
  userdata_response <-
    http {| rq_site := AccountCall; rq_method := "GET";
            rq_url := BACKEND_ISTEFR ++ "/espace-client?type-front=" ++ TYPE_FRONT;
            rq_headers := headers; rq_payload := NoPayload |} ;;
  if negb (status userdata_response =? OK)
  then raise (VeoliaAPIError "Espace-client call error")
  else
    userdata <- response_json userdata_response ;;
    v <- lift (a <~ first_abonnement userdata ;; py_get a "id_abonnement" PNone) ;;
    modify_account (set_id_abonnement v) ;;;
    v <- lift (t <~ first_tiers userdata ;; py_get t "id" PNone) ;;
    modify_account (set_tiers_id v) ;;;
    v <- lift (c <~ first_contact userdata ;; py_get c "id_contact" PNone) ;;
    modify_account (set_contact_id v) ;;;
    v <- lift (a <~ first_abonnement userdata ;; py_get a "numero_compteur" PNone) ;;
    modify_account (set_numero_compteur v) ;;;
    me <- get_account ;;
    if negb (truthy (id_abonnement me)) || negb (truthy (tiers_id me))
       || negb (truthy (contact_id me)) || negb (truthy (numero_compteur me))
    then raise (VeoliaAPIError "Some user data not found in the response")
    else
      facturation_response <-
        http {| rq_site := BillingCall; rq_method := "GET";
                rq_url := BACKEND_ISTEFR ++ "/abonnements/"
                          ++ py_str (id_abonnement me) ++ "/facturation";
                rq_headers := headers; rq_payload := NoPayload |} ;;
      if negb (status facturation_response =? OK)
      then raise (VeoliaAPIError "Facturation call error")
      else
        facturation_data <- response_json facturation_response ;;
        v <- lift (py_get facturation_data "numero_pds" PNone) ;;
        modify_account (set_numero_pds v) ;;;
        if negb (truthy v)
        then raise (VeoliaAPIError "numero_pds not found in the response")
        else
          v <- lift (py_get facturation_data "date_debut_abonnement" PNone) ;;
          modify_account (set_date_debut_abonnement v) ;;;
          if negb (truthy v)
          then raise (VeoliaAPIError
                        "date_debut_abonnement not found in the response")
          else ret tt.

(** The check that ends [login]. *)
Definition identifiers_populated (a : VeoliaAccountData) : bool :=
  truthy (access_token a) && truthy (id_abonnement a)
  && truthy (numero_pds a) && truthy (contact_id a)
  && truthy (tiers_id a) && truthy (numero_compteur a)
  && truthy (date_debut_abonnement a).

(** The body of [login]; [again] is the [login] that [check_token] calls
    from inside [get_client_data]. *)
Definition login_body (again : M bool) : M bool :=
  me <- get_self ;;
  if negb (truthy (username me)) || negb (truthy (password me))
  then raise (VeoliaAPIError "Username or password not provided")
  else
    execute_flow ;;;
    get_access_token ;;;
    get_client_data_with again ;;;
    me <- get_account ;;
    if identifiers_populated me then ret true else ret false.

Fixpoint login_fuel (fuel : nat) : M bool :=
  match fuel with
  | O => out_of_fuel
  | S fuel => login_body (login_fuel fuel)
  end.

(** [login]: every nested [login] starts after at least one response has been
    taken, so the pending responses bound the depth. *)
Definition login : M bool :=
  fun st => login_fuel (S (length (pending (env st)))) st.

Definition check_token : M unit := check_token_with login.


(** [alert[a][b] if alert else None] *)
Definition contact_flag (alert : pyval) (name : string) : M pyval :=
  if truthy alert
  then lift (contact <~ py_item alert "moyen_contact" ;; py_item contact name)
  else ret PNone.

(** [alert["valeur"] if alert else None] *)
Definition threshold (alert : pyval) : M pyval :=
  if truthy alert then lift (py_item alert "valeur") else ret PNone.

Definition get_alerts : M AlertSettings :=
  check_token ;;;
  me <- get_account ;;
  let headers := [("Authorization", "Bearer " ++ py_str (access_token me))] in
  let params := dict_literal [("abo_id", id_abonnement me)] in
  let url := BACKEND_ISTEFR ++ "/alertes/" ++ py_str (numero_pds me) in
  response <-
    http {| rq_site := AlertsGet; rq_method := "GET"; rq_url := url;
            rq_headers := headers; rq_payload := Params params |} ;;
  if negb (status response =? OK)
  then raise (VeoliaAPIError ("Get alerts call error status code "
                              ++ decimal (status response)))
  else
    data <- response_json response ;;
    daily_alert <-
      lift (seuils <~ py_item data "seuils" ;; py_get seuils "journalier" PNone) ;;
    monthly_alert <-
      lift (seuils <~ py_item data "seuils" ;; py_get seuils "mensuel" PNone) ;;
    daily_threshold <- threshold daily_alert ;;
    daily_contact_email <- contact_flag daily_alert "souscrit_par_email" ;;
    daily_contact_sms <- contact_flag daily_alert "souscrit_par_mobile" ;;
    monthly_threshold <- threshold monthly_alert ;;
    monthly_contact_email <- contact_flag monthly_alert "souscrit_par_email" ;;
    monthly_contact_sms <- contact_flag monthly_alert "souscrit_par_mobile" ;;
    lift (AlertSettings_init
            [("daily_enabled", PBool (truthy daily_alert));
             ("daily_threshold", daily_threshold);
             ("daily_contact_email", daily_contact_email);
             ("daily_contact_sms", daily_contact_sms);
             ("monthly_enabled", PBool (truthy monthly_alert));
             ("monthly_threshold", monthly_threshold);
             ("monthly_contact_email", monthly_contact_email);
             ("monthly_contact_sms", monthly_contact_sms)]).

(** The object [set_alerts] stores under [alerte_journaliere] or
    [alerte_mensuelle]; the attributes of [alert_settings] are read in the
    order of the display. *)
Definition alert_entry (alert_settings : AlertSettings)
  (threshold_attr unit email_attr sms_attr : string) : M pyval :=
  seuil <- lift (AlertSettings_getattr alert_settings threshold_attr) ;;
  by_email <- lift (AlertSettings_getattr alert_settings email_attr) ;;
  by_mobile <- lift (AlertSettings_getattr alert_settings sms_attr) ;;
  ret (PDict (dict_literal
         [("seuil", seuil);
          ("unite", PStr unit);
          ("souscrite", PBool true);
          ("contact_channel",
           PDict (dict_literal [("subscribed_by_email", by_email);
                                ("subscribed_by_mobile", by_mobile)]))])).

Definition set_alerts (alert_settings : AlertSettings) : M bool :=
  check_token ;;;
  me <- get_account ;;
  let url := BACKEND_ISTEFR ++ "/alertes/" ++ py_str (numero_pds me) in
  let payload : dict pyval := [] in
  enabled <- lift (AlertSettings_getattr alert_settings "daily_enabled") ;;
  payload <-
    (if truthy enabled then
       entry <- alert_entry alert_settings "daily_threshold" "L"
                  "daily_contact_email" "daily_contact_sms" ;;
       ret (dict_set payload "alerte_journaliere" entry)
     else ret payload) ;;
  enabled <- lift (AlertSettings_getattr alert_settings "monthly_enabled") ;;
  payload <-
    (if truthy enabled then
       entry <- alert_entry alert_settings "monthly_threshold" "M3"
                  "monthly_contact_email" "monthly_contact_sms" ;;
       ret (dict_set payload "alerte_mensuelle" entry)
     else ret payload) ;;
  me <- get_account ;;
  let payload :=
    dict_update payload
      (dict_literal
         [("contact_id", contact_id me);
          ("numero_compteur", numero_compteur me);
          ("tiers_id", tiers_id me);
          ("abo_id", PStr (py_str (id_abonnement me)));
          ("type_front", PStr TYPE_FRONT)]) in
  let headers :=
    [("Authorization", "Bearer " ++ py_str (access_token me));
     ("Content-Type", "application/json")] in
  response <-
    http {| rq_site := AlertsPost; rq_method := "POST"; rq_url := url;
            rq_headers := headers; rq_payload := JsonBody (PDict payload) |} ;;
  ret (status response =? NO_CONTENT).

(** [v is not None] *)
Definition is_not_none (v : pyval) : bool :=
  match v with
  | PNone => false
  | _ => true
  end.

(** [get_consumption_data(data_type, year, month)]; [month] is [None] when
    the caller leaves it out. *)
Definition get_consumption_data (data_type : ConsumptionType)
  (year month : pyval) : M pyval :=
  check_token ;;;
  me <- get_account ;;
  let headers := [("Authorization", "Bearer " ++ py_str (access_token me))] in
  let params :=
    dict_literal
      [("annee", year);
       ("numero-pds", numero_pds me);
       ("date-debut-abonnement", date_debut_abonnement me)] in
  chosen <-
    (if ConsumptionType_eqb data_type MONTHLY && is_not_none month
     then ret (dict_set params "mois" month, "journalieres")
     else if ConsumptionType_eqb data_type YEARLY
     then ret (params, "mensuelles")
     else raise (ValueError
                   "Invalid data type or missing month for monthly data")) ;;
  let params := fst chosen in
  let endpoint := snd chosen in
  let url := BACKEND_ISTEFR ++ "/consommations/"
             ++ py_str (id_abonnement me) ++ "/" ++ endpoint in
  response <-
    http {| rq_site := ConsumptionCall; rq_method := "GET"; rq_url := url;
            rq_headers := headers; rq_payload := Params params |} ;;
  if negb (status response =? OK)
  then raise (VeoliaAPIError "Get data call error")
  else response_json response.

Definition fetch_all_data (year month : pyval) : M unit :=
  v <- get_consumption_data YEARLY year PNone ;;
  modify_account (set_monthly_consumption v) ;;;
  v <- get_consumption_data MONTHLY year month ;;
  modify_account (set_daily_consumption v) ;;;
  v <- get_alerts ;;
  modify_account (set_alert_settings (Some v)).

End Client.

(** ** A flow descriptor to run the client on *)

Module Sample.

(** Modelled from the spec: the paths of the authorize, identifier-submit
    and password-submit steps, which [constants.py] as given does not define;
    the spec names the steps, not their paths. *)
Definition authorize_path : string := "/authorize".
Definition identifier_path : string := "/u/login/identifier".
Definition password_path : string := "/u/login/password".

(** Modelled from the spec: the flow descriptor [API_CONNECTION_FLOW], which
    [constants.py] as given does not define.  The three steps on the identity
    host answer 302 and the callback answers 200; the builders pass on the
    correlation state with the username, the password or the authorization
    code; the authorize step declares no builder of its own. *)
Definition flow (next_url : string) : option flow_step :=
  if (next_url =? authorize_path)%string then
    Some {| method := "GET"; params := None; success_status := FOUND |}
  else if (next_url =? identifier_path)%string then
    Some {| method := "POST";
            params := Some (fun args =>
              [("state", nth 0 args PNone); ("username", nth 1 args PNone)]);
            success_status := FOUND |}
  else if (next_url =? password_path)%string then
    Some {| method := "POST";
            params := Some (fun args =>
              [("state", nth 0 args PNone); ("username", nth 1 args PNone);
               ("password", nth 2 args PNone)]);
            success_status := FOUND |}
  else if (next_url =? CALLBACK_ENDPOINT)%string then
    Some {| method := "GET";
            params := Some (fun args =>
              [("state", nth 0 args PNone); ("code", nth 1 args PNone)]);
            success_status := OK |}
  else None.

(** Modelled from the spec: the remaining constants the client imports, with
    sample values.  The text of lists and dicts is left to Python; the
    properties hold for every choice of it, and the runs below format
    strings and integers only. *)
Definition imported : Imported :=
  {| AUTHORIZE_ENDPOINT := authorize_path;
     LOGIN_IDENTIFIER_ENDPOINT := identifier_path;
     LOGIN_PASSWORD_ENDPOINT := password_path;
     BASE_URL := "https://www.eau.veolia.fr";
     CLIENT_ID := "client";
     CODE_CHALLENGE_METHODE := "S256";
     OAUTH_TOKEN := "/oauth/token";
     API_CONNECTION_FLOW := flow;
     container_text := fun _ => "" |}.

Definition redirect (path : string) (query : list (string * string))
  : response :=
  {| status := FOUND;
     Location := Some {| url_path := path; url_query := query |};
     json := None |}.

Definition answer (code : Z) (body : option pyval) : response :=
  {| status := code; Location := None; json := body |}.

(** The draws of the entropy source: 32 bytes each. *)
Definition draw (n : nat) : list byte :=
  match n with
  | 0%nat => repeat "s"%byte 32
  | 1%nat => repeat "n"%byte 32
  | _ => repeat "v"%byte 32
  end.

Definition world_of (answers : list response) (t : nat -> Z) : world :=
  {| pending := answers; exchanges := []; clock := t; clock_reads := 0%nat;
     entropy := draw; entropy_draws := 0%nat |}.

Definition fresh (answers : list response) (t : nat -> Z) : state :=
  {| self := VeoliaAPI_init (PStr "email") (PStr "password");
     env := world_of answers t |}.

Definition userdata : pyval :=
  PDict [("contacts", PList [PDict
    [("id_contact", PStr "C1");
     ("tiers", PList [PDict
       [("id", PStr "T1");
        ("abonnements", PList [PDict
          [("id_abonnement", PInt 42);
           ("numero_compteur", PStr "M7")]])]])]])].

Definition facturation : pyval :=
  PDict [("numero_pds", PStr "PDS9");
         ("date_debut_abonnement", PStr "2020-01-01")].

(** The end-to-end scenario: four flow steps, the token exchange with
    [expires_in = 3600], the account and the billing calls. *)
Definition happy_answers : list response :=
  [redirect identifier_path [("state", "S1")];
   redirect password_path [("state", "S2")];
   redirect CALLBACK_ENDPOINT [("code", "C")];
   answer OK None;
   answer OK (Some (PDict [("access_token", PStr "T"); ("expires_in", PInt 3600)]));
   answer OK (Some userdata);
   answer OK (Some facturation)].

Definition wall_clock (n : nat) : Z := Z.of_nat n + 1700000000000000.

End Sample.

Module Scenarios.
Import Sample.

Definition awaiting (answers : list response) (st : state) : state :=
  {| self := self st;
     env := {| pending := answers;
               exchanges := exchanges (env st);
               clock := clock (env st);
               clock_reads := clock_reads (env st);
               entropy := entropy (env st);
               entropy_draws := entropy_draws (env st) |} |}.

(** The client after the end-to-end scenario. *)
Definition logged_in : state :=
  snd (login (imported := imported) (fresh happy_answers wall_clock)).


(** A wrong password: the password step is answered 400. *)
Definition bad_password_answers : list response :=
  [redirect identifier_path [("state", "S1")];
   redirect password_path [("state", "S2")];
   answer BAD_REQUEST None].


Definition daily_alert : AlertSettings :=
  {| daily_enabled := PBool true; daily_threshold := PInt 100;
     daily_notif_email := PBool true; daily_notif_sms := PBool false;
     monthly_enabled := PBool false; monthly_threshold := PNone;
     monthly_notif_email := PNone; monthly_notif_sms := PNone |}.

End Scenarios.

(** * The vocabulary of the properties *)

Module Vocabulary.

(** The responses the exchanges of a log received. *)
Definition answers (log : list (request * option response)) : list response :=
  flat_map (fun e => match snd e with Some r => [r] | None => [] end) log.

(** [st'] comes after [st]: same credentials, same clock and entropy source,
    a longer log, and the responses that left the pending ones are those the
    new exchanges received. *)
Definition after (st st' : state) : Prop :=
  username (self st') = username (self st)
  /\ password (self st') = password (self st)
  /\ clock (env st') = clock (env st)
  /\ entropy (env st') = entropy (env st)
  /\ exists new,
       exchanges (env st') = (exchanges (env st) ++ new)%list
       /\ pending (env st) = (answers new ++ pending (env st'))%list.

(** A computation all of whose runs end in a state that comes after. *)
Definition framed {A} (m : M A) : Prop := forall st, after st (snd (m st)).

(** A computation that, when it returns, has taken a response. *)
Definition consuming {A} (m : M A) : Prop :=
  forall st a st', m st = (Ret a, st') ->
    (length (pending (env st')) < length (pending (env st)))%nat.

Definition total {A} (m : M A) : Prop := forall st, fst (m st) <> OutOfFuel.

(** A computation that issues no request and always comes back. *)
Definition quiet {A} (m : M A) : Prop :=
  forall st,
    exchanges (env (snd (m st))) = exchanges (env st)
    /\ fst (m st) <> NoReply /\ fst (m st) <> OutOfFuel.

(** The three draws a call of [_get_authorize_params] makes. *)
Definition next_draws (st : state) : list (list byte) :=
  [entropy (env st) (entropy_draws (env st));
   entropy (env st) (S (entropy_draws (env st)));
   entropy (env st) (S (S (entropy_draws (env st))))].





(** The state a redirect carries, if any, and the correlation state after
    the response. *)
Definition received_state (r : response) : option string :=
  match dict_find "state" (parse_qs (url_query (urlparse (Location r)))) with
  | Some (v :: _) => Some v
  | Some [] | None => None
  end.

Definition next_state (r : response) (s : pyval) : pyval :=
  match received_state r with
  | Some v => PStr v
  | None => s
  end.

Definition payload_params (p : payload) : dict pyval :=
  match p with
  | Params ps | FormData ps => ps
  | NoPayload | JsonBody _ => []
  end.

(** The correlation state after the exchanges of [log], from [s]: each
    response that carries a state overwrites it. *)
Definition carried (log : list (request * option response)) (s : pyval)
  : pyval :=
  fold_left (fun s e => match snd e with
                        | Some r => next_state r s
                        | None => s
                        end) log s.

End Vocabulary.
Import Vocabulary.

Section FlowVocabulary.

Context {imported : Imported}.

(** The URL a flow step is sent to. *)
Definition flow_url (u : string) (s : pyval) : string :=
  if truthy s then _get_full_url u ++ "?state=" ++ py_str s
  else _get_full_url u.

(** [rq] is the request the loop issues from [st] at step [u] with
    correlation state [s]. *)
Definition issued (u : string) (s : pyval) (st : state) (rq : request) : Prop :=
  rq_site rq = FlowStep u s
  /\ rq_url rq = flow_url u s
  /\ exists config,
       api_flow u = inr config
       /\ rq_method rq = method config
       /\ fst (_get_params u config s st) = Ret (payload_params (rq_payload rq)).

(** The exchanges of the loop entered at [u] with [s] in state [st], and its
    outcome. *)
Inductive flow_trace
  : option string -> pyval -> state -> list (request * option response)
    -> outcome unit -> Prop :=
| trace_end u s st :
    u = None \/ u = Some "" -> flow_trace u s st [] (Ret tt)
| trace_unsent u s st e :
    flow_trace (Some u) s st [] (Exc e)
| trace_fuel u s st :
    flow_trace (Some u) s st [] OutOfFuel
| trace_unanswered u s st rq :
    issued u s st rq -> flow_trace (Some u) s st [(rq, None)] NoReply
| trace_refused u s st rq r e :
    issued u s st rq ->
    (forall st1, fst (_handle_response r u s (rq_url rq) st1) = Exc e) ->
    flow_trace (Some u) s st [(rq, Some r)] (Exc e)
| trace_next u s st rq r h st' rest o :
    issued u s st rq ->
    (forall st1, fst (_handle_response r u s (rq_url rq) st1) = Ret h) ->
    after st st' ->
    flow_trace (fst h) (snd h) st' rest o ->
    flow_trace (Some u) s st ((rq, Some r) :: rest) o.

End FlowVocabulary.

(** * Properties *)

(** ** What every computation of the client leaves alone *)

Module Frame.

Lemma after_refl st : after st st.
Proof.
  repeat split; exists []; split; [now rewrite app_nil_r | reflexivity].
Qed.

Lemma after_trans st1 st2 st3 : after st1 st2 -> after st2 st3 -> after st1 st3.
Proof.
  intros (U1 & P1 & C1 & E1 & n1 & L1 & Q1) (U2 & P2 & C2 & E2 & n2 & L2 & Q2).
  repeat split; try congruence.
  exists (n1 ++ n2)%list. split.
  - rewrite L2, L1. now rewrite app_assoc.
  - unfold answers in *. rewrite flat_map_app, Q1, Q2. now rewrite app_assoc.
Qed.

Lemma after_pending st st' :
  after st st' ->
  (length (pending (env st')) <= length (pending (env st)))%nat.
Proof.
  intros (_ & _ & _ & _ & new & _ & Q). rewrite Q, length_app. lia.
Qed.

Lemma framed_ret {A} (a : A) : framed (ret a).
Proof. intro st. apply after_refl. Qed.

Lemma framed_raise {A} e : framed (@raise A e).
Proof. intro st. apply after_refl. Qed.

Lemma framed_out_of_fuel {A} : framed (@out_of_fuel A).
Proof. intro st. apply after_refl. Qed.

Lemma framed_bind {A B} (m : M A) (k : A -> M B) :
  framed m -> (forall a, framed (k a)) -> framed (bind m k).
Proof.
  intros Hm Hk st. unfold bind. specialize (Hm st).
  destruct (m st) as [[a | e | | ] st1]; simpl in *; trivial.
  eapply after_trans; [exact Hm | apply Hk].
Qed.

Lemma framed_lift {A} (r : result A) : framed (lift r).
Proof. destruct r; [apply framed_raise | apply framed_ret]. Qed.

Lemma framed_get_self : framed get_self.
Proof. intro st. apply after_refl. Qed.

Lemma framed_get_account : framed get_account.
Proof. intro st. apply after_refl. Qed.

Lemma framed_modify_account f : framed (modify_account f).
Proof.
  intro st. repeat split. exists []. simpl. split; [now rewrite app_nil_r | reflexivity].
Qed.

Lemma framed_now : framed now.
Proof.
  intro st. repeat split. exists []. simpl. split; [now rewrite app_nil_r | reflexivity].
Qed.

Lemma framed_urandom32 : framed urandom32.
Proof.
  intro st. repeat split. exists []. simpl. split; [now rewrite app_nil_r | reflexivity].
Qed.

Lemma framed_http rq : framed (http rq).
Proof.
  intro st. unfold http.
  destruct (pending (env st)) as [| r rest] eqn:P; repeat split; simpl.
  - exists [(rq, None)]. now split.
  - exists [(rq, Some r)]. now split.
Qed.

Lemma framed_response_json r : framed (response_json r).
Proof.
  unfold response_json. destruct (json r); [apply framed_ret | apply framed_raise].
Qed.

Lemma consuming_http rq : consuming (http rq).
Proof.
  intros st a st'. unfold http.
  destruct (pending (env st)) as [| r rest]; intro H; inversion H; subst; simpl.
  lia.
Qed.

Lemma consuming_bind_l {A B} (m : M A) (k : A -> M B) :
  consuming m -> (forall a, framed (k a)) -> consuming (bind m k).
Proof.
  intros Hm Hk st b st'. unfold bind.
  destruct (m st) as [[a | e | | ] st1] eqn:E; try discriminate.
  intro H. apply Hm in E.
  pose proof (after_pending _ _ (Hk a st1)) as L. rewrite H in L. simpl in L. lia.
Qed.

Lemma consuming_bind_r {A B} (m : M A) (k : A -> M B) :
  framed m -> (forall a, consuming (k a)) -> consuming (bind m k).
Proof.
  intros Hm Hk st b st'. unfold bind.
  pose proof (after_pending _ _ (Hm st)) as L.
  destruct (m st) as [[a | e | | ] st1] eqn:E; try discriminate.
  intro H. apply Hk in H. simpl in L. lia.
Qed.

End Frame.
Import Frame.

Create HintDb framed.

#[global] Hint Resolve framed_ret framed_raise framed_out_of_fuel framed_lift
  framed_get_self framed_get_account framed_modify_account framed_now
  framed_urandom32 framed_http framed_response_json : framed.

(** Splits a computation along its [bind]s and its tests. *)
Ltac frame_step :=
  match goal with
  | |- framed (bind _ _) => apply framed_bind; [| intro]
  | |- framed (if ?b then _ else _) => destruct b
  | |- framed (match ?x with _ => _ end) => destruct x
  | |- framed (let _ := _ in _) => cbv zeta
  | |- framed _ => solve [auto with framed]
  end.

Ltac frame := repeat frame_step.

(** Inversion of a run. *)
Lemma bind_ret_inv {A B} (m : M A) (k : A -> M B) st b st' :
  bind m k st = (Ret b, st') ->
  exists a st1, m st = (Ret a, st1) /\ k a st1 = (Ret b, st').
Proof.
  unfold bind. destruct (m st) as [[a | e | | ] st1]; intro H;
    try discriminate. eauto.
Qed.

Lemma bind_ext_l {A B} (m1 m2 : M A) (k : A -> M B) st :
  m1 st = m2 st -> bind m1 k st = bind m2 k st.
Proof. intro H. unfold bind. now rewrite H. Qed.

Lemma bind_ext_r {A B} (m : M A) (k1 k2 : A -> M B) st :
  (forall a st1, m st = (Ret a, st1) -> k1 a st1 = k2 a st1) ->
  bind m k1 st = bind m k2 st.
Proof.
  intro H. unfold bind. destruct (m st) as [[a | e | | ] st1]; auto.
Qed.

Lemma lift_ret_inv {A} (r : result A) st a st' :
  lift r st = (Ret a, st') -> r = inr a /\ st' = st.
Proof.
  destruct r; simpl; unfold raise, ret; intro H; inversion H; auto.
Qed.

(** ** Frames of the client's methods, and the fuel of [login] *)

Section ClientFrames.

Context {imported : Imported}.

Lemma framed_get_authorize_params s : framed (_get_authorize_params s).
Proof. unfold _get_authorize_params. frame. Qed.

Lemma framed_send_request site url m ps : framed (send_request site url m ps).
Proof. unfold send_request. frame. Qed.

Lemma framed_call_params config args : framed (call_params config args).
Proof. unfold call_params. frame. Qed.

Lemma framed_get_params u config s : framed (_get_params u config s).
Proof.
  unfold _get_params. apply framed_bind; [auto with framed | intro me].
  destruct (dict_find u param_functions) as [[ | | | ] | ];
    auto using framed_get_authorize_params, framed_call_params.
  frame.
Qed.

Lemma framed_handle_response r u s full : framed (_handle_response r u s full).
Proof. unfold _handle_response. frame. Qed.

Lemma framed_flow_loop fuel : forall u s, framed (flow_loop fuel u s).
Proof.
  induction fuel as [| fuel IH]; intros [u |] s; cbn [flow_loop];
    try apply framed_ret.
  - destruct (u =? "")%string; [apply framed_ret | apply framed_out_of_fuel].
  - destruct (u =? "")%string; [apply framed_ret |].
    apply framed_bind; [auto with framed | intro config].
    apply framed_bind; [apply framed_get_params | intro ps].
    apply framed_bind; [apply framed_send_request | intro r].
    apply framed_bind; [apply framed_handle_response | intro h].
    apply IH.
Qed.

Lemma framed_execute_flow : framed execute_flow.
Proof. intro st. unfold execute_flow. apply framed_flow_loop. Qed.

Lemma framed_get_access_token : framed get_access_token.
Proof. unfold get_access_token. frame. Qed.

Lemma framed_check_token_with again : framed again -> framed (check_token_with again).
Proof. intro H. unfold check_token_with. frame; exact H. Qed.

Lemma framed_get_client_data_with again :
  framed again -> framed (get_client_data_with again).
Proof.
  intro H. unfold get_client_data_with.
  apply framed_bind; [now apply framed_check_token_with | intro].
  frame.
Qed.

Lemma framed_login_body again : framed again -> framed (login_body again).
Proof.
  intro H. unfold login_body.
  apply framed_bind; [auto with framed | intro me].
  destruct (_ || _); [apply framed_raise |].
  apply framed_bind; [apply framed_execute_flow | intro].
  apply framed_bind; [apply framed_get_access_token | intro].
  apply framed_bind; [now apply framed_get_client_data_with | intro].
  frame.
Qed.

Lemma framed_login_fuel fuel : framed (login_fuel fuel).
Proof.
  induction fuel; cbn [login_fuel];
    [apply framed_out_of_fuel | now apply framed_login_body].
Qed.

Lemma framed_login : framed login.
Proof. intro st. unfold login. apply framed_login_fuel. Qed.

Lemma framed_check_token : framed check_token.
Proof. apply framed_check_token_with, framed_login. Qed.

Lemma consuming_get_access_token : consuming get_access_token.
Proof.
  unfold get_access_token. cbv zeta.
  apply consuming_bind_r; [auto with framed | intro me].
  apply consuming_bind_l; [apply consuming_http | intro r]. frame.
Qed.

(** [check_token] and [get_client_data] call [login] in the state they are
    entered in, or one reading of the clock later. *)
Lemma check_token_with_ext (f g : M bool) st :
  f st = g st -> f (tick st) = g (tick st) ->
  check_token_with f st = check_token_with g st.
Proof.
  intros H0 H1. unfold check_token_with, bind, get_account, now.
  destruct (negb _).
  - now rewrite H0.
  - destruct (_ <=? _); [now rewrite H1 | reflexivity].
Qed.

Lemma get_client_data_with_ext (f g : M bool) st :
  f st = g st -> f (tick st) = g (tick st) ->
  get_client_data_with f st = get_client_data_with g st.
Proof.
  intros H0 H1. unfold get_client_data_with.
  apply bind_ext_l. now apply check_token_with_ext.
Qed.

Lemma login_body_ext (f g : M bool) st :
  (forall st', (length (pending (env st')) < length (pending (env st)))%nat ->
               f st' = g st') ->
  login_body f st = login_body g st.
Proof.
  intro H. unfold login_body.
  apply bind_ext_r. intros me st0 E0. inversion E0; subst st0 me; clear E0.
  destruct (_ || _); [reflexivity |].
  apply bind_ext_r. intros [] st1 E1.
  pose proof (after_pending _ _ (framed_execute_flow st)) as L1.
  rewrite E1 in L1; simpl in L1.
  apply bind_ext_r. intros [] st2 E2.
  apply consuming_get_access_token in E2.
  apply bind_ext_l. apply get_client_data_with_ext; apply H; simpl; lia.
Qed.

Lemma login_fuel_stable n : forall m st,
  (length (pending (env st)) < n)%nat -> (length (pending (env st)) < m)%nat ->
  login_fuel n st = login_fuel m st.
Proof.
  induction n as [| n IH]; intros m st Hn Hm; [lia |].
  destruct m as [| m]; [lia |]. cbn [login_fuel].
  apply login_body_ext. intros st' L. apply IH; lia.
Qed.

(** [login] satisfies the equation the source defines it by: its body, with
    [login] itself behind [check_token]. *)
Lemma login_unfold st : login st = login_body login st.
Proof.
  unfold login at 1. cbn [login_fuel]. apply login_body_ext.
  intros st' L. unfold login. apply login_fuel_stable; lia.
Qed.

(** *** The fuel is never exhausted *)

Create HintDb total.

Lemma total_bind {A B} (m : M A) (k : A -> M B) :
  total m -> (forall a, total (k a)) -> total (bind m k).
Proof.
  intros Hm Hk st. unfold bind. specialize (Hm st).
  destruct (m st) as [[a | e | | ] st1]; simpl in *; try discriminate.
  - apply Hk.
  - congruence.
Qed.

Lemma total_at_bind {A B} (m : M A) (k : A -> M B) st :
  fst (m st) <> OutOfFuel ->
  (forall a st1, m st = (Ret a, st1) -> fst (k a st1) <> OutOfFuel) ->
  fst (bind m k st) <> OutOfFuel.
Proof.
  intros Hm Hk. unfold bind.
  destruct (m st) as [[a | e | | ] st1]; simpl in *; try discriminate.
  - now apply Hk.
  - congruence.
Qed.

Lemma total_ret {A} (a : A) : total (ret a).
Proof. intro st. discriminate. Qed.

Lemma total_raise {A} e : total (@raise A e).
Proof. intro st. discriminate. Qed.

Lemma total_lift {A} (r : result A) : total (lift r).
Proof. destruct r; [apply total_raise | apply total_ret]. Qed.

Lemma total_get_self : total get_self.
Proof. intro st. discriminate. Qed.

Lemma total_get_account : total get_account.
Proof. intro st. discriminate. Qed.

Lemma total_modify_account f : total (modify_account f).
Proof. intro st. discriminate. Qed.

Lemma total_now : total now.
Proof. intro st. discriminate. Qed.

Lemma total_urandom32 : total urandom32.
Proof. intro st. discriminate. Qed.

Lemma total_http rq : total (http rq).
Proof. intro st. unfold http. destruct (pending (env st)); discriminate. Qed.

Lemma total_response_json r : total (response_json r).
Proof.
  unfold response_json. destruct (json r); [apply total_ret | apply total_raise].
Qed.

#[local] Hint Resolve total_ret total_raise total_lift total_get_self total_get_account
  total_modify_account total_now total_urandom32 total_http
  total_response_json : total.

Ltac total_step :=
  match goal with
  | |- total (bind _ _) => apply total_bind; [| intro]
  | |- total (if ?b then _ else _) => destruct b
  | |- total (match ?x with _ => _ end) => destruct x
  | |- total (let _ := _ in _) => cbv zeta
  | |- total _ => solve [auto with total]
  end.

Lemma total_get_params u config s : total (_get_params u config s).
Proof.
  unfold _get_params, _get_authorize_params, call_params. repeat total_step.
Qed.

Lemma total_send_request site url m ps : total (send_request site url m ps).
Proof. unfold send_request. repeat total_step. Qed.

Lemma consuming_send_request site url m ps :
  consuming (send_request site url m ps).
Proof.
  unfold send_request.
  destruct (m =? "GET")%string; [apply consuming_http |].
  destruct (m =? "POST")%string; [apply consuming_http |].
  intros st a st' H. discriminate.
Qed.

Lemma total_handle_response r u s full : total (_handle_response r u s full).
Proof. unfold _handle_response. repeat total_step. Qed.

Lemma flow_loop_total fuel : forall u s st,
  (length (pending (env st)) < fuel)%nat ->
  fst (flow_loop fuel u s st) <> OutOfFuel.
Proof.
  induction fuel as [| fuel IH]; intros [u |] s st L; cbn [flow_loop];
    try discriminate; try lia.
  destruct (u =? "")%string; [discriminate |].
  apply total_at_bind; [apply total_lift | intros config st0 E0].
  apply lift_ret_inv in E0. destruct E0 as [_ ->].
  apply total_at_bind; [apply total_get_params | intros ps st1 E1].
  pose proof (after_pending _ _ (framed_get_params u config s st)) as L1.
  rewrite E1 in L1; simpl in L1.
  apply total_at_bind; [apply total_send_request | intros r st2 E2].
  apply consuming_send_request in E2.
  apply total_at_bind; [apply total_handle_response | intros h st3 E3].
  match type of E3 with _handle_response _ _ _ ?f _ = _ =>
    pose proof (after_pending _ _ (framed_handle_response r u s f st2)) as L3
  end.
  rewrite E3 in L3; simpl in L3.
  apply IH. lia.
Qed.

Lemma total_execute_flow : total execute_flow.
Proof. intro st. unfold execute_flow. apply flow_loop_total. lia. Qed.

Lemma total_get_access_token : total get_access_token.
Proof. unfold get_access_token. repeat total_step. Qed.

Lemma login_fuel_total n : forall st,
  (length (pending (env st)) < n)%nat -> fst (login_fuel n st) <> OutOfFuel.
Proof.
  induction n as [| n IH]; intros st L; [lia |]. cbn [login_fuel].
  unfold login_body.
  apply total_at_bind; [apply total_get_self | intros me st0 E0].
  inversion E0; subst st0 me; clear E0.
  destruct (_ || _); [discriminate |].
  apply total_at_bind; [apply total_execute_flow | intros [] st1 E1].
  pose proof (after_pending _ _ (framed_execute_flow st)) as L1.
  rewrite E1 in L1; simpl in L1.
  apply total_at_bind; [apply total_get_access_token | intros [] st2 E2].
  apply consuming_get_access_token in E2.
  assert (T : forall st', (length (pending (env st')) < n)%nat ->
                          fst (login_fuel n st') <> OutOfFuel) by exact IH.
  apply total_at_bind.
  - unfold get_client_data_with.
    apply total_at_bind.
    + unfold check_token_with.
      apply total_at_bind; [apply total_get_account | intros me st3 E3].
      inversion E3; subst st3 me; clear E3.
      destruct (negb _).
      * apply total_at_bind; [apply T; lia | intros; discriminate].
      * apply total_at_bind; [apply total_now | intros t st3 E3].
        inversion E3; subst st3 t; clear E3.
        destruct (_ <=? _); [| discriminate].
        apply total_at_bind; [apply T; simpl; lia | intros; discriminate].
    + intros [] st3 _. revert st3.
      match goal with |- forall st3, fst (?m st3) <> _ => change (total m) end.
      repeat total_step.
  - intros [] st3 _. revert st3.
    match goal with |- forall st3, fst (?m st3) <> _ => change (total m) end.
    repeat total_step.
Qed.

(** [login] and [execute_flow] give a result on every state. *)
Lemma total_login : total login.
Proof. intro st. unfold login. apply login_fuel_total. lia. Qed.

End ClientFrames.

(** ** The token and its expiry *)

Section Token.

Context {imported : Imported}.

(** C1. [check_token] re-runs the full login exactly when the access token
    is absent or the current time is at or past [token_expiration]: it then
    behaves as [login] does (whose body is flow execution, token exchange and
    identifier resolution), the value of [login] dropped.  With a token and
    an expiration strictly in the future it only reads the clock: no HTTP
    call is made and the client object is unchanged. *)
Theorem check_token_relogin_iff_invalid (st : state) :
  let me := account_data (self st) in
  (truthy (access_token me) = false \/ token_expiration me <= current_time st ->
     check_token st
     = (login ;;; ret tt) (if truthy (access_token me) then tick st else st)
     /\ forall st0, login st0 = login_body login st0)
  /\ (truthy (access_token me) = true /\ current_time st < token_expiration me ->
     check_token st = (Ret tt, tick st)
     /\ self (tick st) = self st
     /\ exchanges (env (tick st)) = exchanges (env st)
     /\ pending (env (tick st)) = pending (env st)).
Proof.
  intro me. subst me. split.
  - intro H. split; [| exact login_unfold].
    unfold check_token, check_token_with.
    unfold bind at 1. unfold get_account at 1.
    destruct (truthy (access_token (account_data (self st)))) eqn:T; simpl.
    + destruct H as [H | H]; [discriminate |].
      unfold bind at 1. unfold now at 1.
      apply Z.leb_le in H. now rewrite H.
    + reflexivity.
  - intros [T L]. split; [| repeat split].
    unfold check_token, check_token_with, bind, get_account, now.
    rewrite T. simpl. apply Z.leb_gt in L. now rewrite L.
Qed.

(** C10. With an empty username or password [login] raises before any flow
    step: the state it leaves is the one it was called in, so no request was
    issued and no field of the session data changed. *)
Theorem login_rejects_empty_credentials (st : state) :
  truthy (username (self st)) = false \/ truthy (password (self st)) = false ->
  login st = (Exc (VeoliaAPIError "Username or password not provided"), st).
Proof.
  intro H. rewrite login_unfold. unfold login_body, bind, get_self.
  destruct H as [H | H]; rewrite H; simpl; [reflexivity |].
  now rewrite orb_true_r.
Qed.

(** C6. [_get_authorize_params] ignores the state it is given: whatever
    the two supplied values and the two client states, the same random bytes
    give the same parameters; the [state] parameter is the encoding of the
    first draw, and the supplied value changes nothing in the state left
    either. *)
Theorem authorize_params_ignore_state (s1 s2 : pyval) (st1 st2 : state) :
  (next_draws st1 = next_draws st2 ->
     fst (_get_authorize_params s1 st1) = fst (_get_authorize_params s2 st2))
  /\ _get_authorize_params s1 st1 = _get_authorize_params s2 st1
  /\ exists ps,
       fst (_get_authorize_params s1 st1) = Ret ps
       /\ dict_find "state" ps
          = Some (PStr (_base64_url_encode
                          (entropy (env st1) (entropy_draws (env st1))))).
Proof.
  split; [| split].
  - unfold next_draws. intro H. injection H as H0 H1 H2.
    unfold _get_authorize_params, bind, urandom32, modify_account, ret. simpl.
    now rewrite H0, H1, H2.
  - reflexivity.
  - eexists. split; reflexivity.
Qed.



End Token.

(** ** What [login] returns *)

(** Inversion of a run that returned, one construct at a time. *)
Ltac invert_run :=
  repeat match goal with
  | H : bind _ _ _ = (Ret _, _) |- _ =>
      apply bind_ret_inv in H; destruct H as (? & ? & ? & ?)
  | H : lift _ _ = (Ret _, _) |- _ =>
      apply lift_ret_inv in H; destruct H as [? ?]; subst
  | H : ret _ _ = (Ret _, _) |- _ => inversion H; subst; clear H
  | H : raise _ _ = (Ret _, _) |- _ => discriminate H
  | H : get_account _ = (Ret _, _) |- _ => inversion H; subst; clear H
  | H : get_self _ = (Ret _, _) |- _ => inversion H; subst; clear H
  | H : modify_account _ _ = (Ret _, _) |- _ => inversion H; subst; clear H
  | H : now _ = (Ret _, _) |- _ => inversion H; subst; clear H
  | H : response_json ?r _ = (Ret _, _) |- _ =>
      unfold response_json in H; destruct (json r)
  | H : http _ ?st = (Ret _, _) |- _ =>
      unfold http in H; destruct (pending (env st)); inversion H; subst; clear H
  | H : (if ?c then _ else _) _ = (Ret _, _) |- _ => destruct c eqn:?
  end.

Section Login.

Context {imported : Imported}.







End Login.

(** ** The login flow as a trace of exchanges *)

Module Quiet.

Lemma quiet_ret {A} (a : A) : quiet (ret a).
Proof. intro st. simpl. repeat split; discriminate. Qed.

Lemma quiet_raise {A} e : quiet (@raise A e).
Proof. intro st. simpl. repeat split; discriminate. Qed.

Lemma quiet_lift {A} (r : result A) : quiet (lift r).
Proof. destruct r; [apply quiet_raise | apply quiet_ret]. Qed.

Lemma quiet_bind {A B} (m : M A) (k : A -> M B) :
  quiet m -> (forall a, quiet (k a)) -> quiet (bind m k).
Proof.
  intros Hm Hk st. unfold bind. destruct (Hm st) as (E & N & F).
  destruct (m st) as [[a | e | | ] st1]; simpl in *; try congruence.
  - destruct (Hk a st1) as (E' & N' & F'). repeat split; congruence.
  - repeat split; try discriminate. exact E.
Qed.

Lemma quiet_get_self : quiet get_self.
Proof. intro st. simpl. repeat split; discriminate. Qed.

Lemma quiet_get_account : quiet get_account.
Proof. intro st. simpl. repeat split; discriminate. Qed.

Lemma quiet_modify_account f : quiet (modify_account f).
Proof. intro st. simpl. repeat split; discriminate. Qed.

Lemma quiet_urandom32 : quiet urandom32.
Proof. intro st. simpl. repeat split; discriminate. Qed.

End Quiet.
Import Quiet.

Create HintDb quiet.

#[global] Hint Resolve quiet_ret quiet_raise quiet_lift quiet_get_self
  quiet_get_account quiet_modify_account quiet_urandom32 : quiet.

Ltac quiet_step :=
  match goal with
  | |- quiet (bind _ _) => apply quiet_bind; [| intro]
  | |- quiet (if ?b then _ else _) => destruct b
  | |- quiet (match ?x with _ => _ end) => destruct x
  | |- quiet (let _ := _ in _) => cbv zeta
  | |- quiet _ => solve [auto with quiet]
  end.

Section Flow.

Context {imported : Imported}.

Lemma quiet_get_params u config s : quiet (_get_params u config s).
Proof.
  unfold _get_params, _get_authorize_params, call_params. repeat quiet_step.
Qed.

Lemma quiet_handle_response r u s full : quiet (_handle_response r u s full).
Proof. unfold _handle_response. repeat quiet_step. Qed.

(** The outcome of [_handle_response] does not depend on the client state. *)
Lemma handle_response_outcome r u s full st1 st2 :
  fst (_handle_response r u s full st1) = fst (_handle_response r u s full st2).
Proof.
  unfold _handle_response, bind, lift, raise, ret, modify_account.
  destruct (_ && _); [reflexivity |].
  destruct (api_flow u); [reflexivity |].
  destruct (negb _); [reflexivity |].
  destruct (status r =? FOUND); [| destruct (_ && _); reflexivity].
  destruct (_ =? _)%string; [| reflexivity].
  destruct (dict_find "code" _) as [[| c l] |]; simpl; try reflexivity.
  destruct (c =? "")%string; reflexivity.
Qed.

(** A 400 to the password step is the credential error, whatever status the
    descriptor declares for that step. *)
Lemma handle_bad_credentials r s full st :
  status r = BAD_REQUEST ->
  _handle_response r LOGIN_PASSWORD_ENDPOINT s full st
  = (Exc (VeoliaAPIError "Invalid username or password"), st).
Proof.
  intro S. unfold _handle_response. rewrite S, String.eqb_refl. reflexivity.
Qed.


Lemma handle_returns r u s full st h st' :
  _handle_response r u s full st = (Ret h, st') ->
  match fst h with
  | None => status r = OK /\ u = CALLBACK_ENDPOINT /\ snd h = s
  | Some u' =>
      status r = FOUND /\ u' = url_path (urlparse (Location r))
      /\ snd h = next_state r s
  end.
Proof.
  unfold _handle_response. intro H.
  destruct (_ && _); [discriminate |].
  apply bind_ret_inv in H. destruct H as (config & st0 & _ & H).
  destruct (negb _); [discriminate |].
  destruct (status r =? FOUND) eqn:F.
  - apply bind_ret_inv in H. destruct H as ([] & st1 & _ & H).
    inversion H; subst; simpl. apply Z.eqb_eq in F.
    repeat split; trivial. unfold next_state, received_state.
    destruct (dict_find "state" _) as [[| v l] |]; reflexivity.
  - destruct (status r =? OK) eqn:O; simpl in H; [| discriminate].
    destruct (u =? CALLBACK_ENDPOINT)%string eqn:U; [| discriminate].
    inversion H; subst; simpl. apply Z.eqb_eq in O. apply String.eqb_eq in U.
    auto.
Qed.

Lemma bind_cases {A B} (m : M A) (k : A -> M B) st o st' :
  bind m k st = (o, st') ->
  match m st with
  | (Ret a, st1) => k a st1 = (o, st')
  | (Exc e, st1) => o = Exc e /\ st' = st1
  | (NoReply, st1) => o = NoReply /\ st' = st1
  | (OutOfFuel, st1) => o = OutOfFuel /\ st' = st1
  end.
Proof.
  unfold bind. destruct (m st) as [[a | e | | ] st1]; intro H;
    trivial; inversion H; auto.
Qed.

Lemma send_request_cases site url m ps st :
  match send_request site url m ps st with
  | (Ret r, st2) =>
      exists rq rest,
        pending (env st) = r :: rest /\ st2 = exchanged rq (Some r) rest st
        /\ rq_site rq = site /\ rq_url rq = url /\ rq_method rq = m
        /\ payload_params (rq_payload rq) = ps
  | (NoReply, st2) =>
      exists rq,
        st2 = exchanged rq None [] st
        /\ rq_site rq = site /\ rq_url rq = url /\ rq_method rq = m
        /\ payload_params (rq_payload rq) = ps
  | (Exc _, st2) => st2 = st
  | (OutOfFuel, _) => False
  end.
Proof.
  unfold send_request.
  destruct (m =? "GET")%string eqn:G;
    [| destruct (m =? "POST")%string eqn:P; [| reflexivity]];
    [apply String.eqb_eq in G | apply String.eqb_eq in P]; subst m;
    unfold http; destruct (pending (env st)) as [| r rest];
    repeat eexists; reflexivity.
Qed.

Lemma flow_loop_trace fuel : forall u s st o st',
  flow_loop fuel u s st = (o, st') ->
  exists new,
    exchanges (env st') = (exchanges (env st) ++ new)%list
    /\ flow_trace u s st new o.
Proof.
  induction fuel as [| fuel IH]; intros [u |] s st o st' H;
    cbn [flow_loop] in H;
    try (inversion H; subst; exists []; rewrite app_nil_r;
         split; [reflexivity | apply trace_end; auto]).
  - destruct (u =? "")%string eqn:U.
    + apply String.eqb_eq in U. inversion H; subst. exists [].
      rewrite app_nil_r. split; [reflexivity | apply trace_end; auto].
    + inversion H; subst. exists []. rewrite app_nil_r.
      split; [reflexivity | apply trace_fuel].
  - destruct (u =? "")%string eqn:U.
    { apply String.eqb_eq in U. inversion H; subst. exists [].
      rewrite app_nil_r. split; [reflexivity | apply trace_end; auto]. }
    apply bind_cases in H.
    destruct (api_flow u) as [e | config] eqn:C; cbn [lift raise ret] in H.
    { destruct H as [-> ->]. exists []. rewrite app_nil_r.
      split; [reflexivity | apply trace_unsent]. }
    apply bind_cases in H.
    destruct (quiet_get_params u config s st) as (Q1 & N1 & F1).
    pose proof (framed_get_params u config s st) as A1.
    destruct (_get_params u config s st) as [[ps | e | | ] st1] eqn:E1;
      simpl in Q1, N1, F1, A1; try congruence.
    2:{ destruct H as [-> ->]. exists []. rewrite Q1, app_nil_r.
        split; [reflexivity | apply trace_unsent]. }
    apply bind_cases in H.
    fold (flow_url u s) in H.
    pose proof (send_request_cases (FlowStep u s) (flow_url u s)
                  (method config) ps st1) as S2.
    pose proof (framed_send_request (FlowStep u s) (flow_url u s)
                  (method config) ps st1) as A2.
    destruct (send_request (FlowStep u s) (flow_url u s) (method config) ps st1)
      as [[r | e | | ] st2] eqn:E2; simpl in A2; try contradiction.
    + destruct S2 as (rq & rest & P & -> & Hs & Hu & Hm & Hp).
      assert (I : issued u s st rq).
      { repeat split; trivial. exists config. repeat split; trivial.
        rewrite E1, Hp. reflexivity. }
      apply bind_cases in H.
      destruct (quiet_handle_response r u s (flow_url u s)
                  (exchanged rq (Some r) rest st1)) as (Q3 & N3 & F3).
      pose proof (framed_handle_response r u s (flow_url u s)
                    (exchanged rq (Some r) rest st1)) as A3.
      destruct (_handle_response r u s (flow_url u s)
                  (exchanged rq (Some r) rest st1))
        as [[h | e | | ] st3] eqn:E3; simpl in Q3, N3, F3, A3; try congruence.
      * apply IH in H. destruct H as (new & L & T).
        exists ((rq, Some r) :: new). split.
        -- rewrite L, Q3. simpl. rewrite Q1, <- app_assoc. reflexivity.
        -- apply trace_next with (h := h) (st' := st3); trivial.
           ++ intro st0. rewrite Hu.
              rewrite (handle_response_outcome r u s (flow_url u s) st0
                         (exchanged rq (Some r) rest st1)).
              now rewrite E3.
           ++ eapply after_trans; [exact A1 |].
              eapply after_trans; [exact A2 | exact A3].
      * destruct H as [-> ->]. exists [(rq, Some r)]. split.
        -- rewrite Q3. simpl. now rewrite Q1.
        -- apply trace_refused; trivial. intro st0. rewrite Hu.
           rewrite (handle_response_outcome r u s (flow_url u s) st0
                      (exchanged rq (Some r) rest st1)).
           now rewrite E3.
    + subst st2. destruct H as [-> ->]. exists []. rewrite Q1, app_nil_r.
      split; [reflexivity | apply trace_unsent].
    + destruct S2 as (rq & -> & Hs & Hu & Hm & Hp).
      destruct H as [-> ->]. exists [(rq, None)]. split.
      * simpl. now rewrite Q1.
      * apply trace_unanswered. repeat split; trivial.
        exists config. repeat split; trivial. rewrite E1, Hp. reflexivity.
Qed.

Lemma handle_returns_outcome r u s full st h :
  fst (_handle_response r u s full st) = Ret h ->
  match fst h with
  | None => status r = OK /\ u = CALLBACK_ENDPOINT /\ snd h = s
  | Some u' =>
      status r = FOUND /\ u' = url_path (urlparse (Location r))
      /\ snd h = next_state r s
  end.
Proof.
  destruct (_handle_response r u s full st) as [o st'] eqn:E. simpl.
  intros ->. exact (handle_returns r u s full st h st' E).
Qed.

Lemma execute_flow_trace st o st' :
  execute_flow st = (o, st') ->
  exists new,
    exchanges (env st') = (exchanges (env st) ++ new)%list
    /\ flow_trace (Some AUTHORIZE_ENDPOINT) PNone st new o.
Proof. unfold execute_flow. apply flow_loop_trace. Qed.

(** *** A 400 to the password step *)

Lemma trace_bad_credentials u s st new o :
  flow_trace u s st new o ->
  forall i rq r s0,
    nth_error new i = Some (rq, Some r) ->
    rq_site rq = FlowStep LOGIN_PASSWORD_ENDPOINT s0 ->
    status r = BAD_REQUEST ->
    o = Exc (VeoliaAPIError "Invalid username or password")
    /\ S i = length new.
Proof.
  induction 1 as [u s st E | u s st e | u s st | u s st rq I
                 | u s st rq r e I R | u s st rq r h st' rest o I R A T IH];
    intros i rq0 r0 s0 N Site S400;
    try (destruct i; discriminate).
  - destruct i as [| i]; [discriminate | destruct i; discriminate].
  - destruct i as [| i]; [| destruct i; discriminate].
    injection N as <- <-. destruct I as (Hs & _). rewrite Hs in Site.
    injection Site as -> _.
    specialize (R st). rewrite handle_bad_credentials in R by assumption.
    simpl in R. injection R as <-. auto.
  - destruct i as [| i].
    + injection N as <- <-. destruct I as (Hs & _). rewrite Hs in Site.
      injection Site as -> _.
      specialize (R st). rewrite handle_bad_credentials in R by assumption.
      discriminate.
    + simpl in N. destruct (IH i rq0 r0 s0 N Site S400) as [-> L].
      split; [reflexivity | simpl; now rewrite L].
Qed.

(** A failure of the flow is the failure of [login]. *)
Lemma login_fails_with_flow st e st' :
  truthy (username (self st)) = true -> truthy (password (self st)) = true ->
  execute_flow st = (Exc e, st') -> login st = (Exc e, st').
Proof.
  intros U P E. rewrite login_unfold. unfold login_body.
  unfold bind at 1. unfold get_self at 1. rewrite U, P. simpl.
  unfold bind at 1. now rewrite E.
Qed.

(** C4. In every run of the flow, a response of status 400 to the
    password-submission step makes the flow fail with the invalid-credentials
    error, whatever success status the descriptor declares for the step (the
    test comes before the status-mismatch one); that exchange is the last of
    the run, and [login] fails with the same error without any retry. *)
Theorem password_400_is_terminal (st : state) (o : outcome unit) (st' : state) :
  execute_flow st = (o, st') ->
  exists new,
    exchanges (env st') = (exchanges (env st) ++ new)%list
    /\ forall i rq r s,
         nth_error new i = Some (rq, Some r) ->
         rq_site rq = FlowStep LOGIN_PASSWORD_ENDPOINT s ->
         status r = BAD_REQUEST ->
         o = Exc (VeoliaAPIError "Invalid username or password")
         /\ S i = length new
         /\ (truthy (username (self st)) = true ->
             truthy (password (self st)) = true ->
             login st
             = (Exc (VeoliaAPIError "Invalid username or password"), st')).
Proof.
  intro E. destruct (execute_flow_trace st o st' E) as (new & L & T).
  exists new. split; [exact L |]. intros i rq r s N Site S400.
  destruct (trace_bad_credentials _ _ _ _ _ T i rq r s N Site S400) as [-> Len].
  repeat split; trivial. intros U P. now apply login_fails_with_flow.
Qed.

(** *** A 200 outside the callback *)




(** *** The correlation state *)

Lemma carried_last log rq r s :
  carried (log ++ [(rq, Some r)]) s = next_state r (carried log s).
Proof. unfold carried. now rewrite fold_left_app. Qed.

Lemma trace_correlation u s st new o :
  flow_trace u s st new o ->
  forall i rq ans u0 s0,
    nth_error new i = Some (rq, ans) ->
    rq_site rq = FlowStep u0 s0 ->
    s0 = carried (firstn i new) s
    /\ rq_url rq = flow_url u0 s0
    /\ forall j e, (j < i)%nat -> nth_error new j = Some e ->
         exists r, snd e = Some r /\ status r = FOUND.
Proof.
  induction 1 as [u s st E | u s st e | u s st | u s st rq I
                 | u s st rq r e I R | u s st rq r h st' rest o I R A T IH];
    intros i rq0 ans u0 s0 N Site;
    try (destruct i; discriminate).
  - destruct i as [| i]; [| destruct i; discriminate].
    injection N as <- <-. destruct I as (Hs & Hu & _).
    rewrite Hs in Site. injection Site as <- <-.
    repeat split; trivial. intros j x L. lia.
  - destruct i as [| i]; [| destruct i; discriminate].
    injection N as <- <-. destruct I as (Hs & Hu & _).
    rewrite Hs in Site. injection Site as <- <-.
    repeat split; trivial. intros j x L. lia.
  - destruct i as [| i].
    + injection N as <- <-. destruct I as (Hs & Hu & _).
      rewrite Hs in Site. injection Site as <- <-.
      repeat split; trivial. intros j x L. lia.
    + simpl in N. pose proof (handle_returns_outcome _ _ _ _ st _ (R st)) as HR.
      destruct (fst h) as [u' |] eqn:F.
      2:{ inversion T; subst; destruct i; discriminate. }
      destruct HR as (S302 & _ & Hn).
      destruct (IH i rq0 ans u0 s0 N Site) as (C & U & P).
      repeat split; trivial.
      * simpl. now rewrite <- Hn.
      * intros [| j] x L Nj.
        -- injection Nj as <-. exists r. auto.
        -- simpl in Nj. apply (P j x); [lia | exact Nj].
Qed.

Lemma dict_find_set {A} (d : dict A) (a b : string) (v : A) :
  dict_find a (dict_set d b v)
  = if (a =? b)%string then Some v else dict_find a d.
Proof.
  induction d as [| [k w] d IH]; simpl; [reflexivity |].
  destruct (b =? k)%string eqn:B; simpl.
  - apply String.eqb_eq in B. subst k.
    destruct (a =? b)%string; reflexivity.
  - rewrite IH. destruct (a =? k)%string eqn:K; [| reflexivity].
    apply String.eqb_eq in K. subst k.
    rewrite String.eqb_sym in B. now rewrite B.
Qed.

Lemma param_functions_find (u : string) :
  dict_find u param_functions
  = if (u =? CALLBACK_ENDPOINT)%string then Some for_callback
    else if (u =? LOGIN_PASSWORD_ENDPOINT)%string then Some for_login_password
    else if (u =? LOGIN_IDENTIFIER_ENDPOINT)%string
         then Some for_login_identifier
    else if (u =? AUTHORIZE_ENDPOINT)%string then Some for_authorize
    else None.
Proof.
  unfold param_functions, dict_literal, dict_update. cbn [fold_left fst snd].
  now rewrite !dict_find_set.
Qed.

Lemma issued_password s st rq :
  LOGIN_PASSWORD_ENDPOINT <> CALLBACK_ENDPOINT ->
  issued LOGIN_PASSWORD_ENDPOINT s st rq ->
  exists config build,
    api_flow LOGIN_PASSWORD_ENDPOINT = inr config
    /\ params config = Some build
    /\ payload_params (rq_payload rq)
       = build [s; username (self st); password (self st)].
Proof.
  intros D (_ & _ & config & C & _ & G). exists config.
  unfold _get_params, bind, get_self in G.
  rewrite param_functions_find in G.
  apply String.eqb_neq in D. rewrite D, String.eqb_refl in G.
  unfold call_params in G. destruct (params config) as [build |];
    [| discriminate].
  exists build. simpl in G. injection G as <-. auto.
Qed.

Lemma trace_password_params u s st new o :
  flow_trace u s st new o ->
  LOGIN_PASSWORD_ENDPOINT <> CALLBACK_ENDPOINT ->
  forall i rq ans s0,
    nth_error new i = Some (rq, ans) ->
    rq_site rq = FlowStep LOGIN_PASSWORD_ENDPOINT s0 ->
    exists config build,
      api_flow LOGIN_PASSWORD_ENDPOINT = inr config
      /\ params config = Some build
      /\ payload_params (rq_payload rq)
         = build [s0; username (self st); password (self st)].
Proof.
  induction 1 as [u s st E | u s st e | u s st | u s st rq I
                 | u s st rq r e I R | u s st rq r h st' rest o I R A T IH];
    intros D i rq0 ans s0 N Site;
    try (destruct i; discriminate).
  - destruct i as [| i]; [| destruct i; discriminate].
    injection N as <- <-. pose proof I as (Hs & _).
    rewrite Hs in Site. injection Site as -> ->. now apply issued_password.
  - destruct i as [| i]; [| destruct i; discriminate].
    injection N as <- <-. pose proof I as (Hs & _).
    rewrite Hs in Site. injection Site as -> ->. now apply issued_password.
  - destruct i as [| i].
    + injection N as <- <-. pose proof I as (Hs & _).
      rewrite Hs in Site. injection Site as -> ->. now apply issued_password.
    + simpl in N. destruct A as (AU & AP & _).
      rewrite <- AU, <- AP. now apply (IH D i rq0 ans).
Qed.

Lemma trace_first u s st new o :
  flow_trace (Some u) s st new o ->
  forall rq ans, nth_error new 0 = Some (rq, ans) -> issued u s st rq.
Proof.
  inversion 1; subst; intros rq0 ans N; try discriminate;
    injection N as <- <-; assumption.
Qed.

Lemma issued_authorize s st rq :
  AUTHORIZE_ENDPOINT <> LOGIN_IDENTIFIER_ENDPOINT ->
  AUTHORIZE_ENDPOINT <> LOGIN_PASSWORD_ENDPOINT ->
  AUTHORIZE_ENDPOINT <> CALLBACK_ENDPOINT ->
  issued AUTHORIZE_ENDPOINT s st rq ->
  dict_find "state" (payload_params (rq_payload rq))
  = Some (PStr (_base64_url_encode
                  (entropy (env st) (entropy_draws (env st))))).
Proof.
  intros D1 D2 D3 (_ & _ & config & C & _ & G).
  unfold _get_params, bind, get_self in G.
  rewrite param_functions_find in G.
  apply String.eqb_neq in D1, D2, D3.
  rewrite D1, D2, D3, String.eqb_refl in G.
  unfold _get_authorize_params, bind, urandom32, modify_account, ret in G.
  simpl in G. injection G as <-. reflexivity.
Qed.

(** C2. In every run of [execute_flow], the state each step is sent with
    (in its URL and in the arguments of its parameter builder), the
    password-submission step among them, is the one the loop carries: the
    state of the most recent earlier redirect that had one, every earlier
    response being a redirect; in particular it is the state of the previous
    redirect when that one has a state.  The first step is the authorize
    step, entered with no state, whose [state] parameter is minted from fresh
    random bytes; and a redirect with a state parameter overwrites the
    carried value. *)
Theorem correlation_state_follows_redirects
  (st : state) (o : outcome unit) (st' : state) :
  execute_flow st = (o, st') ->
  exists new,
    exchanges (env st') = (exchanges (env st) ++ new)%list
    /\ (forall i rq ans u s,
          nth_error new i = Some (rq, ans) ->
          rq_site rq = FlowStep u s ->
          s = carried (firstn i new) PNone
          /\ rq_url rq = flow_url u s
          /\ (forall j e, (j < i)%nat -> nth_error new j = Some e ->
                exists r, snd e = Some r /\ status r = FOUND)
          /\ (forall j rq' r v,
                i = S j -> nth_error new j = Some (rq', Some r) ->
                received_state r = Some v -> s = PStr v))
    /\ (LOGIN_PASSWORD_ENDPOINT <> CALLBACK_ENDPOINT ->
        forall i rq ans s,
          nth_error new i = Some (rq, ans) ->
          rq_site rq = FlowStep LOGIN_PASSWORD_ENDPOINT s ->
          exists config build,
            api_flow LOGIN_PASSWORD_ENDPOINT = inr config
            /\ params config = Some build
            /\ payload_params (rq_payload rq)
               = build [s; username (self st); password (self st)])
    /\ (forall rq ans,
          nth_error new 0 = Some (rq, ans) ->
          rq_site rq = FlowStep AUTHORIZE_ENDPOINT PNone
          /\ rq_url rq = _get_full_url AUTHORIZE_ENDPOINT
          /\ (AUTHORIZE_ENDPOINT <> LOGIN_IDENTIFIER_ENDPOINT ->
              AUTHORIZE_ENDPOINT <> LOGIN_PASSWORD_ENDPOINT ->
              AUTHORIZE_ENDPOINT <> CALLBACK_ENDPOINT ->
              dict_find "state" (payload_params (rq_payload rq))
              = Some (PStr (_base64_url_encode
                              (entropy (env st) (entropy_draws (env st)))))))
    /\ (forall r s v, received_state r = Some v -> next_state r s = PStr v).
Proof.
  intro E. destruct (execute_flow_trace st o st' E) as (new & L & T).
  exists new. split; [exact L |]. split; [| split; [| split]].
  - intros i rq ans u s N Site.
    destruct (trace_correlation _ _ _ _ _ T i rq ans u s N Site) as (C & U & P).
    repeat split; trivial.
    intros j rq' r v -> Nj V. rewrite C.
    assert (F : firstn (S j) new = (firstn j new ++ [(rq', Some r)])%list).
    { clear - Nj. revert new Nj.
      induction j as [| j IH]; intros [| e new] Nj; try discriminate.
      - injection Nj as ->. reflexivity.
      - simpl in Nj. simpl. f_equal. now apply IH. }
    rewrite F, carried_last. unfold next_state. now rewrite V.
  - intro D. exact (trace_password_params _ _ _ _ _ T D).
  - intros rq ans N. pose proof (trace_first _ _ _ _ _ T rq ans N) as I.
    pose proof I as (Hs & Hu & _). repeat split; trivial.
    intros D1 D2 D3. now apply (issued_authorize PNone st rq).
  - intros r s v V. unfold next_state. now rewrite V.
Qed.

End Flow.

(** ** Alerts *)

Section Alerts.

Context {imported : Imported}.

(** The keywords [get_alerts] calls [AlertSettings] with are not the fields
    of the dataclass. *)
Lemma AlertSettings_init_contact_keywords a b c d e f g h :
  AlertSettings_init
    [("daily_enabled", a); ("daily_threshold", b);
     ("daily_contact_email", c); ("daily_contact_sms", d);
     ("monthly_enabled", e); ("monthly_threshold", f);
     ("monthly_contact_email", g); ("monthly_contact_sms", h)]
  = inl TypeError.
Proof. reflexivity. Qed.

(** [get_alerts] never returns a value. *)
Lemma get_alerts_never_returns st a st' : get_alerts st <> (Ret a, st').
Proof.
  unfold get_alerts. cbv zeta. intro H.
  apply bind_ret_inv in H. destruct H as ([] & st1 & _ & H).
  unfold threshold, contact_flag in H.
  invert_run;
    match goal with
    | H : AlertSettings_init _ = inr _ |- _ =>
        rewrite AlertSettings_init_contact_keywords in H; discriminate H
    end.
Qed.

Lemma getattr_contact_email a :
  AlertSettings_getattr a "daily_contact_email" = inl AttributeError.
Proof. reflexivity. Qed.

(** C8, where the code departs from it.  With the daily alert enabled,
    [set_alerts] raises [AttributeError] once the token is checked: the
    attribute [daily_contact_email] it reads is no field of [AlertSettings];
    no request is posted. *)
Theorem set_alerts_daily_enabled_raises
  (alert_settings : AlertSettings) (st st1 : state) :
  check_token st = (Ret tt, st1) ->
  truthy (daily_enabled alert_settings) = true ->
  set_alerts alert_settings st = (Exc AttributeError, st1).
Proof.
  intros C T. unfold set_alerts. unfold bind at 1. rewrite C.
  unfold bind at 1. unfold get_account at 1.
  cbv zeta. unfold bind at 1.
  change (AlertSettings_getattr alert_settings "daily_enabled")
    with (@inr exn _ (daily_enabled alert_settings)).
  cbn [lift ret]. rewrite T.
  unfold bind at 1. unfold alert_entry.
  unfold bind at 1. unfold bind at 1.
  change (AlertSettings_getattr alert_settings "daily_threshold")
    with (@inr exn _ (daily_threshold alert_settings)).
  cbn [lift ret]. unfold bind at 1. rewrite getattr_contact_email.
  reflexivity.
Qed.

(** What [set_alerts] does with both alerts disabled: the payload has
    neither alert object, and the result is the test of the status. *)
Lemma set_alerts_disabled (alert_settings : AlertSettings) (st st1 : state)
  (r : response) (rest : list response) :
  check_token st = (Ret tt, st1) ->
  truthy (daily_enabled alert_settings) = false ->
  truthy (monthly_enabled alert_settings) = false ->
  pending (env st1) = r :: rest ->
  exists rq,
    set_alerts alert_settings st
    = (Ret (status r =? NO_CONTENT), exchanged rq (Some r) rest st1)
    /\ rq_site rq = AlertsPost
    /\ exists body,
         rq_payload rq = JsonBody (PDict body)
         /\ dict_find "alerte_journaliere" body = None
         /\ dict_find "alerte_mensuelle" body = None.
Proof.
  intros C D Mo P. unfold set_alerts. unfold bind at 1. rewrite C.
  unfold bind, get_account, http. cbv zeta.
  change (AlertSettings_getattr alert_settings "daily_enabled")
    with (@inr exn _ (daily_enabled alert_settings)).
  change (AlertSettings_getattr alert_settings "monthly_enabled")
    with (@inr exn _ (monthly_enabled alert_settings)).
  cbn [lift ret]. rewrite D. cbn [lift ret]. rewrite Mo. cbn [ret].
  rewrite P. eexists. split; [reflexivity |]. split; [reflexivity |].
  eexists. split; [reflexivity |]. split; reflexivity.
Qed.

End Alerts.

Module Examples.
Import Sample Scenarios.

#[local] Existing Instance imported.

(** The encoder on the client tag and on bytes that need the URL-safe
    alphabet, as [base64.urlsafe_b64encode(...).rstrip(b"=")] gives them. *)
Example base64_client_tag :
  _base64_url_encode auth0_client_tag
  = "eyJuYW1lIjogImF1dGgwLXJlYWN0IiwgInZlcnNpb24iOiAiMS4xMS4wIn0".
Proof. reflexivity. Qed.

Example sha256_constants :
  length Sha256.K = 64%nat
  /\ nth 0 Sha256.K 0%N = 0x428a2f98%N /\ nth 63 Sha256.K 0%N = 0xc67178f2%N
  /\ nth 0 Sha256.initial 0%N = 0x6a09e667%N
  /\ nth 7 Sha256.initial 0%N = 0x5be0cd19%N.
Proof. vm_compute. repeat split. Qed.

(** The digest on the test vectors of the standard. *)
Example sha256_abc :
  map Byte.to_N (Sha256.digest (list_byte_of_string "abc"))
  = [186; 120; 22; 191; 143; 1; 207; 234; 65; 65; 64; 222; 93; 174; 34; 35;
     176; 3; 97; 163; 150; 23; 122; 156; 180; 16; 255; 97; 242; 0; 21; 173]%N.
Proof. vm_compute. reflexivity. Qed.

Example sha256_two_blocks :
  map Byte.to_N
    (Sha256.digest
       (list_byte_of_string
          "abcdbcdecdefdefgefghfghighijhijkijkljklmklmnlmnomnopnopq"))
  = [36; 141; 106; 97; 210; 6; 56; 184; 229; 192; 38; 147; 12; 62; 96; 57;
     163; 60; 228; 89; 100; 255; 33; 103; 246; 236; 237; 212; 25; 219; 6;
     193]%N.
Proof. vm_compute. reflexivity. Qed.

(** The PKCE challenge of the scenario's verifier. *)
Example pkce_challenge :
  let verifier := _base64_url_encode (draw 2) in
  _base64_url_encode (_sha256 (list_byte_of_string verifier))
  = "JmnPmnB2_ExeJs5Yma5-FL8qGfQlswwNk-IDlxsuDDQ".
Proof. vm_compute. reflexivity. Qed.

Example base64_url_safe : _base64_url_encode [xfb; xff; xfe] = "-__-".
Proof. reflexivity. Qed.

Example base64_padding_stripped :
  urlsafe_b64encode (list_byte_of_string "a") = "YQ=="
  /\ _base64_url_encode (list_byte_of_string "a") = "YQ".
Proof. split; reflexivity. Qed.

(** The end-to-end scenario: the login succeeds, seven requests are issued
    and the token expires 3600 seconds after the clock reading taken when it
    was received. *)
Example login_scenario :
  fst (login (fresh happy_answers wall_clock)) = Ret true
  /\ length (exchanges (env logged_in)) = 7%nat
  /\ pending (env logged_in) = []
  /\ token_expiration (account_data (self logged_in))
     = wall_clock 0 + 3600 * 1000000.
Proof. vm_compute. repeat split. Qed.

(** A redirect without a [Location] header leaves an empty next step: the
    loop of the flow stops there and [execute_flow] returns. *)
Example redirect_without_location_ends_the_flow :
  fst (execute_flow
         (fresh [{| status := FOUND; Location := None; json := None |}]
            wall_clock))
  = Ret tt.
Proof. vm_compute. reflexivity. Qed.

(** Without [expires_in] the token is expired as soon as it is stored: the
    [check_token] of [get_client_data] logs in again, and so on until the
    servers stop answering. *)
Example login_without_expires_in :
  fst (login
         (fresh
            [redirect identifier_path [("state", "S1")];
             redirect password_path [("state", "S2")];
             redirect CALLBACK_ENDPOINT [("code", "C")];
             answer OK None;
             answer OK (Some (PDict [("access_token", PStr "T")]))]
            wall_clock))
  = NoReply.
Proof. vm_compute. reflexivity. Qed.

Lemma check_token_witness :
  check_token (imported := imported) logged_in = (Ret tt, tick logged_in)
  /\ check_token (imported := imported) (fresh [] wall_clock)
     = (login (imported := imported) ;;; ret tt) (fresh [] wall_clock).
Proof.
  split.
  - apply (proj2 (check_token_relogin_iff_invalid logged_in)).
    split; vm_compute; reflexivity.
  - apply (proj1 (check_token_relogin_iff_invalid (fresh [] wall_clock))).
    left. reflexivity.
Defined.

Lemma login_rejects_empty_credentials_witness :
  let st := {| self := VeoliaAPI_init (PStr "") (PStr "password");
               env := world_of happy_answers wall_clock |} in
  login (imported := imported) st
  = (Exc (VeoliaAPIError "Username or password not provided"), st).
Proof.
  intro st. apply login_rejects_empty_credentials. left. reflexivity.
Defined.

Lemma authorize_params_witness :
  fst (_get_authorize_params (imported := imported) (PStr "caller")
         (fresh [] wall_clock))
  = fst (_get_authorize_params (imported := imported) PNone
           (fresh happy_answers (fun _ => 0))).
Proof.
  apply (proj1 (authorize_params_ignore_state (PStr "caller") PNone
                  (fresh [] wall_clock) (fresh happy_answers (fun _ => 0)))).
  reflexivity.
Defined.




Lemma password_400_witness :
  let st := fresh bad_password_answers wall_clock in
  fst (execute_flow (imported := imported) st)
  = Exc (VeoliaAPIError "Invalid username or password")
  /\ login (imported := imported) st
     = (Exc (VeoliaAPIError "Invalid username or password"),
        snd (execute_flow (imported := imported) st)).
Proof.
  intro st.
  destruct (password_400_is_terminal st _ _
              (surjective_pairing (execute_flow (imported := imported) st)))
    as (new & L & H).
  vm_compute in L. subst new.
  match type of H with
  | forall i rq r s, nth_error (_ :: _ :: (?rq0, Some ?r0) :: _) i = _ -> _ =>
      destruct (H 2%nat rq0 r0 (PStr "S2") eq_refl eq_refl eq_refl)
        as (O & _ & G)
  end.
  split; [exact O | apply G; reflexivity].
Defined.



Lemma correlation_state_witness :
  let st := fresh happy_answers wall_clock in
  exists first password_step ans,
    nth_error (exchanges (env (snd (execute_flow (imported := imported) st))))
      0
    = Some first
    /\ dict_find "state" (payload_params (rq_payload (fst first)))
       = Some (PStr (_base64_url_encode (draw 0)))
    /\ nth_error (exchanges (env (snd (execute_flow (imported := imported) st))))
         2
       = Some (password_step, ans)
    /\ rq_site password_step = FlowStep password_path (PStr "S2")
    /\ rq_url password_step = LOGIN_URL ++ password_path ++ "?state=S2"
    /\ payload_params (rq_payload password_step)
       = [("state", PStr "S2"); ("username", PStr "email");
          ("password", PStr "password")].
Proof.
  intro st.
  destruct (correlation_state_follows_redirects st _ _
              (surjective_pairing (execute_flow (imported := imported) st)))
    as (new & L & H & P & A & _).
  vm_compute in L. subst new.
  match type of H with
  | forall i rq ans u s,
      nth_error ((?rq0, ?a0) :: (?rq1, Some ?r1) :: (?rq2, ?a2) :: _) i = _
      -> _ =>
      exists (rq0, a0), rq2, a2;
      destruct (H 2%nat rq2 a2 password_path (PStr "S2") eq_refl eq_refl)
        as (_ & U & _ & V);
      destruct (P ltac:(vm_compute; discriminate) 2%nat rq2 a2 (PStr "S2")
                  eq_refl eq_refl)
        as (config & build & C & B & Q);
      pose proof (V 1%nat rq1 r1 "S2"%string eq_refl eq_refl eq_refl) as W;
      pose proof (A _ _ eq_refl) as (_ & _ & F);
      pose proof (F ltac:(vm_compute; discriminate)
                    ltac:(vm_compute; discriminate)
                    ltac:(vm_compute; discriminate)) as F'
  end.
  vm_compute in C. injection C as <-. vm_compute in B. injection B as <-.
  split; [vm_compute; reflexivity |]. split; [exact F' |].
  split; [vm_compute; reflexivity |]. split; [reflexivity |].
  split; [exact U | exact Q].
Defined.

(** C7, on the code: the alerts endpoint answers 200 with a [seuils] object
    that has no [journalier] key, and [get_alerts] raises [TypeError]
    instead of returning an [AlertSettings]: it calls the dataclass with
    keywords ([daily_contact_email], ...) that are not its fields. *)
Theorem get_alerts_raises_without_daily_alert :
  fst (get_alerts (imported := imported)
         (awaiting [answer OK (Some (PDict [("seuils", PDict [])]))] logged_in))
  = Exc TypeError.
Proof. vm_compute. reflexivity. Qed.

Lemma set_alerts_daily_enabled_witness :
  set_alerts (imported := imported) daily_alert
    (awaiting [answer NO_CONTENT None] logged_in)
  = (Exc AttributeError, tick (awaiting [answer NO_CONTENT None] logged_in)).
Proof.
  apply set_alerts_daily_enabled_raises; vm_compute; reflexivity.
Defined.

End Examples.
